(** * care/facility/models/patient_consultation.py

    A shallow embedding of the [PatientConsultation] model: its columns, the
    choice list of [suggestion], the declared validators, the CSV export
    tables, the two check constraints of [Meta] and [save], together with the
    part of the object-relational layer those declarations are handed to
    (three-valued SQL checks, NOT NULL columns, field cleaning, [on_delete]
    collection).

    Conventions.  A Python [None] and an SQL NULL are both [None : option _];
    an SQL truth value is an [option bool] whose [None] is UNKNOWN.  A Python
    [dict] read only through [get] is a [gmap]; a [dict] whose order matters
    is an association list.  Python [float]s are IEEE binary64, the kernel's
    [float]. *)

From Stdlib Require Import ZArith Floats.
From stdpp Require Import base option list strings gmap.

Set Warnings "-register-all".

Local Open Scope Z_scope.
Local Open Scope string_scope.

(** ** Values *)

(** Primary keys handed out by an [AutoField]. *)
Abbreviation rowid := positive.

(** A [DateTimeField] value: seconds on some clock. *)
Abbreviation datetime := Z.

(** What a [JSONField] holds. *)
Inductive json :=
| JNull
| JBool (b : bool)
| JNum (n : Z)
| JStr (s : string)
| JArr (items : list json)
| JObj (members : list (string * json)).

(** ** care.facility.models.patient_base *)

(** The namespace [SuggestionChoices] is imported from [patient_base]; its five
    attributes are used by this file but their values are declared elsewhere,
    so they are left open. *)
Module SuggestionChoices.
Record t := { HI : string; A : string; R : string; OP : string; DC : string }.

Definition codes (sc : t) : list string := [HI sc; A sc; R sc; OP sc; DC sc].

(** What the [suggestion] column (a non-blank [CharField] of at most four
    characters) needs of the codes to be able to hold each of them. *)
Definition storable (sc : t) : Prop :=
  Forall (λ c, c ≠ "" ∧ (String.length c ≤ 4)%nat) (codes sc).
End SuggestionChoices.

(** Modelled from the spec: [reverse_choices] is imported from [patient_base]
    and absent here; the spec calls its results "reverse lookup tables" that
    "translate stored codes to display labels".  The table is filled in list
    order, a later pair overwriting an earlier one with the same code. *)
Definition reverse_choices `{Countable K} (choices : list (K * string)) : gmap K string :=
  foldl (λ output choice, <[choice.1 := choice.2]> output) ∅ choices.

(** Python's [d.get(key, default)]. *)
Definition dict_get `{Countable K} {V} (d : gmap K V) (key : K) (dflt : V) : V :=
  default dflt (d !! key).

(** ** Related records

    [__str__] reads [patient.name] and [facility.name]; the block kept in the
    docstring of [save] writes [patient.facility].  Nothing else of the two
    related models is visible from this file. *)
Record PatientRegistration := {
  patient_name : string;
  patient_facility : option rowid;
}.

Record Facility := {
  facility_name : string;
}.

(** ** The model instance

    The columns the constraints, validators, export tables and [save] speak
    about.  Every attribute of a Python instance may be [None], whatever the
    column allows. *)
Record PatientConsultation := {
  pk : option rowid;
  patient : option rowid;
  facility : option rowid;
  symptoms_onset_date : option datetime;
  category : option string;
  examination_details : option string;
  suggestion : option string;
  referred_to : option rowid;
  admitted : option bool;
  admission_date : option datetime;
  height : option float;
  weight : option float;
  cpk_mb : option Z;
  cuff_pressure : option Z;
  ett_tt : option Z;
  lines : json;
}.

Definition with_pk (k : rowid) (self : PatientConsultation) : PatientConsultation :=
  {| pk := Some k; patient := patient self; facility := facility self;
     symptoms_onset_date := symptoms_onset_date self; category := category self;
     examination_details := examination_details self;
     suggestion := suggestion self; referred_to := referred_to self;
     admitted := admitted self; admission_date := admission_date self;
     height := height self; weight := weight self; cpk_mb := cpk_mb self;
     cuff_pressure := cuff_pressure self; ett_tt := ett_tt self;
     lines := lines self |}.

(** ** Q objects and check constraints *)

Definition sql_not (a : option bool) : option bool := negb <$> a.

Definition sql_or (a b : option bool) : option bool :=
  match a, b with
  | Some true, _ | _, Some true => Some true
  | Some false, Some false => Some false
  | _, _ => None
  end.

(** A [Q] object, read as the SQL condition it compiles to. *)
Definition Q := PatientConsultation → option bool.

(** [Q(column=value)]: a comparison with NULL is UNKNOWN. *)
Definition Q_exact {V} `{EqDecision V} (column : PatientConsultation → option V) (value : V) : Q :=
  λ row, (λ x, bool_decide (x = value)) <$> column row.

Definition is_null {V} (x : option V) : bool :=
  match x with
  | None => true
  | Some _ => false
  end.

(** [Q(column__isnull=flag)]: never UNKNOWN. *)
Definition Q_isnull {V} (column : PatientConsultation → option V) (flag : bool) : Q :=
  λ row, Some (if flag then is_null (column row) else negb (is_null (column row))).

(** [~q] on a column declared NOT NULL (as [suggestion] is) compiles to a
    plain NOT. *)
Definition Q_not (q : Q) : Q := λ row, sql_not (q row).

Definition Q_or (q1 q2 : Q) : Q := λ row, sql_or (q1 row) (q2 row).

Record CheckConstraint := {
  name : string;
  check : Q;
}.

(** A CHECK rejects a row only when its condition is FALSE. *)
Definition satisfies (c : CheckConstraint) (row : PatientConsultation) : bool :=
  match check c row with
  | Some false => false
  | _ => true
  end.

Section Model.

Variable sc : SuggestionChoices.t.

Definition if_referral_suggested : CheckConstraint :=
  {| name := "if_referral_suggested";
     check := Q_or (Q_not (Q_exact suggestion (SuggestionChoices.R sc)))
                   (Q_isnull referred_to false) |}.

Definition if_admitted : CheckConstraint :=
  {| name := "if_admitted";
     check := Q_or (Q_exact admitted false) (Q_isnull admission_date false) |}.

(** [Meta.constraints]. *)
Definition constraints : list CheckConstraint :=
  [if_referral_suggested; if_admitted].

End Model.

(** ** The storage layer

    Three tables.  Only [consultations] is declared by this file; the other two
    are the targets of its foreign keys. *)
Record Database := {
  patients : gmap rowid PatientRegistration;
  facilities : gmap rowid Facility;
  consultations : gmap rowid PatientConsultation;
}.

Definition empty_db : Database :=
  {| patients := ∅; facilities := ∅; consultations := ∅ |}.

Definition set_consultations (t : gmap rowid PatientConsultation) (db : Database) : Database :=
  {| patients := patients db; facilities := facilities db; consultations := t |}.

Inductive IntegrityError :=
| NotNullViolation (column : string)
| ForeignKeyViolation (column : string)
| CheckViolation (constraint : string).

Inductive ProtectedError :=
| Protected (relation : string) (protected_objects : list rowid).

(** A foreign key column is fine when it is NULL or points at a stored row. *)
Definition dangling {V} (target : gmap rowid V) (ref : option rowid) : bool :=
  match ref with
  | None => false
  | Some k => is_null (target !! k)
  end.

Section Storage.

Variable sc : SuggestionChoices.t.

(** Columns declared without [null=True]. *)
Definition null_violations (row : PatientConsultation) : list IntegrityError :=
  (if is_null (patient row) then [NotNullViolation "patient_id"] else []) ++
  (if is_null (facility row) then [NotNullViolation "facility_id"] else []) ++
  (if is_null (suggestion row) then [NotNullViolation "suggestion"] else []) ++
  (if is_null (admitted row) then [NotNullViolation "admitted"] else []) ++
  (match lines row with JNull => [NotNullViolation "lines"] | _ => [] end).

Definition check_violations (row : PatientConsultation) : list IntegrityError :=
  (λ c, CheckViolation (name c)) <$>
    List.filter (λ c, negb (satisfies c row)) (constraints sc).

Definition foreign_key_violations (db : Database) (row : PatientConsultation) : list IntegrityError :=
  (if dangling (patients db) (patient row) then [ForeignKeyViolation "patient_id"] else []) ++
  (if dangling (facilities db) (facility row) then [ForeignKeyViolation "facility_id"] else []) ++
  (if dangling (facilities db) (referred_to row) then [ForeignKeyViolation "referred_to_id"] else []).

Definition violations (db : Database) (row : PatientConsultation) : list IntegrityError :=
  null_violations row ++ check_violations row ++ foreign_key_violations db row.

Inductive outcome :=
| Saved (self : PatientConsultation)
| Raised (e : IntegrityError).

(** Modelled from the spec: [PatientBaseModel] is imported and absent here, so
    [super().save] is the layer the spec describes: "single-row
    all-or-nothing writes", a "constraint violation ... is rejected by the
    storage layer".  An instance without a primary key is inserted under an
    unused one; one with a primary key replaces (or creates) that row.  The
    refusals are the ones this file declares (NOT NULL columns, the two
    checks, the three foreign keys); what a column type or the key sequence
    refuses on top of them is not modelled, so an instance refused here is
    refused, while one accepted here may still be refused for those. *)
Definition PatientBaseModel_save (self : PatientConsultation) (db : Database) : outcome * Database :=
  match violations db self with
  | e :: _ => (Raised e, db)
  | [] =>
      let k := default (fresh (dom (consultations db))) (pk self) in
      let stored := with_pk k self in
      (Saved stored, set_consultations (<[k := stored]> (consultations db)) db)
  end.

(** [PatientConsultation.save]: the body is a docstring followed by the call
    of the parent's [save]. *)
Definition save (self : PatientConsultation) (db : Database) : outcome * Database :=
  PatientBaseModel_save self db.

(** The statements kept inside the docstring of [save], as they would run if
    they were code: on creation or referral the patient is moved to the
    referral target (or to the consultation's facility) and saved. *)
Definition hospital_change_on_referral (self : PatientConsultation) (db : Database) : Database :=
  if is_null (pk self) || negb (is_null (referred_to self)) then
    match patient self with
    | Some p =>
        {| patients :=
             alter (λ rec, {| patient_name := patient_name rec;
                              patient_facility :=
                                match referred_to self with
                                | Some f => Some f
                                | None => facility self
                                end |}) p (patients db);
           facilities := facilities db;
           consultations := consultations db |}
    | None => db
    end
  else db.

(** ** Deletion

    [on_delete] is read by the collector when a referenced row is deleted:
    CASCADE collects the referring consultations too, PROTECT raises instead of
    deleting anything. *)

(** [patient = ForeignKey("PatientRegistration", on_delete=CASCADE)]. *)
Definition delete_patient (k : rowid) (db : Database) : Database :=
  {| patients := delete k (patients db);
     facilities := facilities db;
     consultations := filter (λ kv, patient kv.2 ≠ Some k) (consultations db) |}.

(** [facility = ForeignKey("Facility", on_delete=CASCADE)] and
    [referred_to = ForeignKey("Facility", on_delete=PROTECT)].  Only these two
    relations decide the result: what relations declared by other models
    (that of a patient to its facility among them) do when a facility goes is
    not in this file, and the patient table is handed back as it came. *)
Definition delete_facility (k : rowid) (db : Database) : option ProtectedError * Database :=
  match map_to_list (filter (λ kv, referred_to kv.2 = Some k) (consultations db)) with
  | [] =>
      (None,
       {| patients := patients db;
          facilities := delete k (facilities db);
          consultations := filter (λ kv, facility kv.2 ≠ Some k) (consultations db) |})
  | protected =>
      (Some (Protected "PatientConsultation.referred_to" protected.*1), db)
  end.

Definition delete_consultation (k : rowid) (db : Database) : Database :=
  set_consultations (delete k (consultations db)) db.

Definition create_patient (rec : PatientRegistration) (db : Database) : Database :=
  {| patients := <[fresh (dom (patients db)) := rec]> (patients db);
     facilities := facilities db;
     consultations := consultations db |}.

Definition create_facility (rec : Facility) (db : Database) : Database :=
  {| patients := patients db;
     facilities := <[fresh (dom (facilities db)) := rec]> (facilities db);
     consultations := consultations db |}.

(** The writes that can touch the consultation table or the rows it refers to. *)
Inductive operation :=
| CreatePatient (rec : PatientRegistration)
| CreateFacility (rec : Facility)
| Save (self : PatientConsultation)
| DeleteConsultation (k : rowid)
| DeletePatient (k : rowid)
| DeleteFacility (k : rowid).

Definition run (op : operation) (db : Database) : Database :=
  match op with
  | CreatePatient rec => create_patient rec db
  | CreateFacility rec => create_facility rec db
  | Save self => (save self db).2
  | DeleteConsultation k => delete_consultation k db
  | DeletePatient k => delete_patient k db
  | DeleteFacility k => (delete_facility k db).2
  end.

Definition run_all (ops : list operation) : Database :=
  foldl (λ db op, run op db) empty_db ops.

(** The databases the application can be in. *)
Inductive reachable : Database → Prop :=
| reachable_empty : reachable empty_db
| reachable_run op db : reachable db → reachable (run op db).

End Storage.

(** ** Field validation (django.core.validators, django.db.models.fields) *)

Inductive ValidationError :=
| Invalid (code : string).

Definition validator (V : Type) := V → option ValidationError.

(** Membership in a field's [empty_values], [(None, '', [], (), {})], for a
    value that is not [None]. *)
Class PyValue (V : Type) := in_empty_values : V → bool.

#[global] Instance str_value : PyValue string := λ s, bool_decide (s = "").
#[global] Instance int_value : PyValue Z := λ _, false.
#[global] Instance float_value : PyValue float := λ _, false.
#[global] Instance json_value : PyValue json := λ v,
  match v with
  | JNull | JStr "" | JArr [] | JObj [] => true
  | _ => false
  end.

Definition is_empty `{PyValue V} (value : option V) : bool :=
  match value with
  | None => true
  | Some v => in_empty_values v
  end.

(** Python compares a number with an [int] limit exactly.  For a [float] the
    limit is converted first, which is exact up to [2^53]; the limits of this
    file are 0, 3, 10 and 100. *)
Definition float_of_int (z : Z) : float :=
  match z with
  | Z0 => PrimFloat.zero
  | Zpos _ => PrimFloat.of_uint63 (Uint63.of_Z z)
  | Zneg p => PrimFloat.opp (PrimFloat.of_uint63 (Uint63.of_Z (Zpos p)))
  end.

Class PyNumber (V : Type) := {
  lt_int : V → Z → bool;
  gt_int : V → Z → bool;
}.

#[global] Instance int_number : PyNumber Z :=
  {| lt_int := Z.ltb; gt_int := Z.gtb |}.

#[global] Instance float_number : PyNumber float :=
  {| lt_int := λ a b, PrimFloat.ltb a (float_of_int b);
     gt_int := λ a b, PrimFloat.ltb (float_of_int b) a |}.

(** [compare = lambda a, b: a < b], code ['min_value']. *)
Definition MinValueValidator `{PyNumber V} (limit_value : Z) : validator V :=
  λ a, if lt_int a limit_value then Some (Invalid "min_value") else None.

(** [compare = lambda a, b: a > b], code ['max_value']. *)
Definition MaxValueValidator `{PyNumber V} (limit_value : Z) : validator V :=
  λ a, if gt_int a limit_value then Some (Invalid "max_value") else None.

(** Appended by [CharField] for its [max_length]. *)
Definition MaxLengthValidator (limit_value : nat) : validator string :=
  λ s, if (limit_value <? String.length s)%nat then Some (Invalid "max_length") else None.

(** Python's [==] on the values a choice list is searched with. *)
Class PyEq (V : Type) := py_eq : V → V → bool.

#[global] Instance str_eq : PyEq string := String.eqb.
#[global] Instance int_eq : PyEq Z := Z.eqb.

(** A choice key, as any column value, is a Python value or [None]. *)
Definition eq_or_none `{PyEq V} (a b : option V) : bool :=
  match a, b with
  | None, None => true
  | Some x, Some y => py_eq x y
  | _, _ => false
  end.

(** [choices=None], or a list of (key, label) pairs, which needs [==]. *)
Inductive Choices (V : Type) :=
| NoChoices
| Options {eq : PyEq V} (options : list (option V * string)).
Arguments NoChoices {V}.
Arguments Options {V eq} options.

(** The keyword arguments of a field that validation reads. *)
Record Field (V : Type) := {
  null : bool;
  blank : bool;
  default_kwarg : option (option V);  (* [None] when no [default=] is given *)
  choices : Choices V;
  validators : list (validator V);
}.
Arguments default_kwarg {V} _.
Arguments null {V} _.
Arguments blank {V} _.
Arguments choices {V} _.
Arguments validators {V} _.

Definition CharField (max_length : nat) (kwargs : Field string) : Field string :=
  {| null := null kwargs; blank := blank kwargs;
     default_kwarg := default_kwarg kwargs; choices := choices kwargs;
     validators := validators kwargs ++ [MaxLengthValidator max_length] |}.

(** A [MinValueValidator] or [MaxValueValidator] as it is declared, kept as
    data: [IntegerField] looks at the class and the [limit_value] of each. *)
Inductive LimitValidator :=
| MinValue (limit_value : Z)
| MaxValue (limit_value : Z).

Definition limit_validator `{PyNumber V} (declared : LimitValidator) : validator V :=
  match declared with
  | MinValue limit_value => MinValueValidator limit_value
  | MaxValue limit_value => MaxValueValidator limit_value
  end.

(** [connection.ops.integer_field_range("IntegerField")] on PostgreSQL, the
    backend the JSON fields of this model need: a 32-bit [integer] column. *)
Definition integer_field_range : Z * Z := (-2147483648, 2147483647).

(** [IntegerField.validators]: the declared validators, then a
    [MinValueValidator] for the lower end of the column range unless a
    declared one is at least as tight, then likewise a [MaxValueValidator]
    for the upper end. *)
Definition IntegerField (declared : list LimitValidator) (kwargs : Field Z) : Field Z :=
  let '(min_value, max_value) := integer_field_range in
  let has_min :=
    existsb (λ v, match v with MinValue l => (min_value <=? l)%Z | MaxValue _ => false end)
      declared in
  let has_max :=
    existsb (λ v, match v with MaxValue l => (l <=? max_value)%Z | MinValue _ => false end)
      declared in
  {| null := null kwargs; blank := blank kwargs;
     default_kwarg := default_kwarg kwargs; choices := choices kwargs;
     validators :=
       validators kwargs ++ (limit_validator <$> declared) ++
       (if has_min then [] else [MinValueValidator min_value]) ++
       (if has_max then [] else [MaxValueValidator max_value]) |}.

(** The tail of [Field.validate]: the null check, then the blank check. *)
Definition validate_empty `{PyValue V} (f : Field V) (value : option V)
  : option ValidationError :=
  if is_null value && negb (null f) then Some (Invalid "null")
  else if negb (blank f) && is_empty value then Some (Invalid "blank")
  else None.

(** [Field.validate]: a non-empty value of a field with choices must equal
    one of the keys, and is then accepted without further checks. *)
Definition Field_validate `{PyValue V} (f : Field V) (value : option V)
  : option ValidationError :=
  match choices f with
  | Options options =>
      if negb (is_empty value) then
        if existsb (λ choice, eq_or_none value choice.1) options then None
        else Some (Invalid "invalid_choice")
      else validate_empty f value
  | NoChoices => validate_empty f value
  end.

(** [Field.run_validators]: nothing runs on an empty value; otherwise every
    validator runs and the errors are collected. *)
Definition Field_run_validators `{PyValue V} (f : Field V) (value : option V)
  : list ValidationError :=
  match value with
  | None => []
  | Some v => if in_empty_values v then [] else omap (λ check, check v) (validators f)
  end.

(** [Field.clean]: [validate] raises before the validators are run. *)
Definition Field_clean `{PyValue V} (f : Field V) (value : option V)
  : list ValidationError :=
  match Field_validate f value with
  | Some e => [e]
  | None => Field_run_validators f value
  end.

(** One step of the loop of [Model.clean_fields]: a blank-able field holding
    an empty value is skipped, errors are filed under the field's name. *)
Definition clean_field `{PyValue V}
    (field_name : string) (f : Field V) (value : option V)
  : list (string * list ValidationError) :=
  if blank f && is_empty value then []
  else match Field_clean f value with
       | [] => []
       | errors => [(field_name, errors)]
       end.

(** ** Structural validation of [lines] *)

(** Modelled from the spec: [LINES_CATHETERS] (from [json_schema.consultation])
    is absent here.  The spec says only that it is "a fixed structural schema
    for catheter/line records" with "required structural field"s; the names of
    the required members and the remaining conditions on an entry are left
    open. *)
Record LinesSchema := {
  required : list string;
  conforms_otherwise : list (string * json) → bool;
}.

Definition has_member (key : string) (members : list (string * json)) : bool :=
  existsb (λ m, bool_decide (m.1 = key)) members.

(** Modelled from the spec: an entry conforms when it is a record that holds
    every required member and meets the schema's remaining conditions. *)
Definition entry_conforms (schema : LinesSchema) (entry : json) : bool :=
  match entry with
  | JObj members =>
      forallb (λ key, has_member key members) (required schema)
      && conforms_otherwise schema members
  | _ => false
  end.

(** Modelled from the spec: [JSONFieldSchemaValidator] (from
    [care.utils.models.validators]) is absent here.  [lines] is an "ordered
    list of structured records, each validated against a fixed schema", and
    content that is not is "rejected by the validation collaborator". *)
Definition JSONFieldSchemaValidator (schema : LinesSchema) : validator json :=
  λ value,
    match value with
    | JArr items =>
        if forallb (entry_conforms schema) items then None
        else Some (Invalid "schema")
    | _ => Some (Invalid "schema")
    end.

(** ** The declarations of [PatientConsultation] *)

Section Declarations.

Variable sc : SuggestionChoices.t.

(** [REVERSE_SYMPTOM_CATEGORY_CHOICES] is imported from [patient_base]; the
    table is left open.  A category is a string or [None]. *)
Variable REVERSE_SYMPTOM_CATEGORY_CHOICES : gmap (option string) string.

Variable LINES_CATHETERS : LinesSchema.

Definition SUGGESTION_CHOICES : list (option string * string) :=
  [ (Some (SuggestionChoices.HI sc), "HOME ISOLATION");
    (Some (SuggestionChoices.A sc), "ADMISSION");
    (Some (SuggestionChoices.R sc), "REFERRAL");
    (Some (SuggestionChoices.OP sc), "OP CONSULTATION");
    (Some (SuggestionChoices.DC sc), "DOMICILIARY CARE") ].

Definition REVERSE_SUGGESTION_CHOICES : gmap (option string) string :=
  reverse_choices SUGGESTION_CHOICES.

(** [suggestion = models.CharField(max_length=4, choices=SUGGESTION_CHOICES)] *)
Definition suggestion_field : Field string :=
  CharField 4 {| null := false; blank := false; default_kwarg := None;
                 choices := Options SUGGESTION_CHOICES; validators := [] |}.

Definition height_field : Field float :=
  {| null := true; blank := false; default_kwarg := Some None;
     choices := NoChoices;
     validators := [MinValueValidator 0] |}.

Definition weight_field : Field float :=
  {| null := true; blank := false; default_kwarg := Some None;
     choices := NoChoices;
     validators := [MinValueValidator 0] |}.

Definition cpk_mb_field : Field Z :=
  IntegerField [MinValue 0; MaxValue 100]
    {| null := true; blank := false; default_kwarg := Some None;
       choices := NoChoices; validators := [] |}.

(** Only a lower bound is declared, so the upper end of the column range is
    added. *)
Definition cuff_pressure_field : Field Z :=
  IntegerField [MinValue 0]
    {| null := true; blank := false; default_kwarg := Some None;
       choices := NoChoices; validators := [] |}.

Definition ett_tt_field : Field Z :=
  IntegerField [MinValue 3; MaxValue 10]
    {| null := true; blank := false; default_kwarg := Some None;
       choices := NoChoices; validators := [] |}.

(** [lines = JSONField(default=list, validators=[JSONFieldSchemaValidator(LINES_CATHETERS)])] *)
Definition lines_field : Field json :=
  {| null := false; blank := false; default_kwarg := Some (Some (JArr []));
     choices := NoChoices;
     validators := [JSONFieldSchemaValidator LINES_CATHETERS] |}.

(** The attribute of the instance as a field sees it: JSON [null] is [None]. *)
Definition lines_value (self : PatientConsultation) : option json :=
  match lines self with
  | JNull => None
  | v => Some v
  end.

Definition CSV_MAPPING : list (string * string) :=
  [ ("consultation_created_date", "Date of Consultation");
    ("admission_date", "Date of Admission");
    ("symptoms_onset_date", "Date of Onset of Symptoms");
    ("symptoms", "Symptoms at time of consultation");
    ("category", "Category");
    ("examination_details", "Examination Details");
    ("suggestion", "Suggestion") ].

Definition CSV_MAKE_PRETTY : list (string * (option string → string)) :=
  [ ("category", λ x, dict_get REVERSE_SYMPTOM_CATEGORY_CHOICES x "-");
    ("suggestion", λ x, dict_get REVERSE_SUGGESTION_CHOICES x "-") ].

(** [d[key]] on an ordered dict. *)
Definition dict_item {V} (d : list (string * V)) (key : string) : option V :=
  snd <$> List.find (λ kv, String.eqb kv.1 key) d.

(** The pretty-printer registered for an exported field, if there is one. *)
Definition make_pretty (field_name : string) : option (option string → string) :=
  dict_item CSV_MAKE_PRETTY field_name.

(** ** Validation of a whole instance *)

(** The errors of the validators of the five bounded measurements: the ones
    this file declares and, for [cuff_pressure], the one [IntegerField] adds. *)
Definition numeric_validator_errors (self : PatientConsultation)
  : list (string * list ValidationError) :=
  [ ("height", Field_run_validators height_field (height self));
    ("weight", Field_run_validators weight_field (weight self));
    ("cpk_mb", Field_run_validators cpk_mb_field (cpk_mb self));
    ("cuff_pressure", Field_run_validators cuff_pressure_field (cuff_pressure self));
    ("ett_tt", Field_run_validators ett_tt_field (ett_tt self)) ].

(** [Model.clean_fields] over the fields above, in declaration order.  The
    other fields of the model are left out (among them [category], whose
    [CATEGORY_CHOICES] are declared elsewhere); each of them could only add
    entries, so an instance this function refuses is refused, while one it
    lets through may still be refused for a field that is not here. *)
Definition clean_fields (self : PatientConsultation)
  : list (string * list ValidationError) :=
  clean_field "suggestion" suggestion_field (suggestion self) ++
  clean_field "height" height_field (height self) ++
  clean_field "weight" weight_field (weight self) ++
  clean_field "cpk_mb" cpk_mb_field (cpk_mb self) ++
  clean_field "cuff_pressure" cuff_pressure_field (cuff_pressure self) ++
  clean_field "ett_tt" ett_tt_field (ett_tt self) ++
  clean_field "lines" lines_field (lines_value self).

Inductive write_result :=
| Rejected (errors : list (string * list ValidationError))
| Written (result : outcome).

(** Modelled from the spec: the write path of the validation collaborator,
    which rejects "at validation time", "before persistence"; only a clean
    instance reaches [save]. *)
Definition validated_save (self : PatientConsultation) (db : Database)
  : write_result * Database :=
  match clean_fields self with
  | [] => let result := save sc self db in (Written result.1, result.2)
  | errors => (Rejected errors, db)
  end.

End Declarations.

(** ** The bounds in the words of the specification *)

(** Below zero, as IEEE comparison has it (so neither [-0.0] nor NaN). *)
Definition negative (x : float) : Prop := PrimFloat.ltb x PrimFloat.zero = true.

(** "cpk_mb outside [0,100], ett_tt outside [3,10], or negative
    height/weight/cuff_pressure". *)
Definition out_of_range (self : PatientConsultation) : Prop :=
  (∃ n, cpk_mb self = Some n ∧ (n < 0 ∨ 100 < n)) ∨
  (∃ n, ett_tt self = Some n ∧ (n < 3 ∨ 10 < n)) ∨
  (∃ x, height self = Some x ∧ negative x) ∨
  (∃ x, weight self = Some x ∧ negative x) ∨
  (∃ n, cuff_pressure self = Some n ∧ n < 0).

(** The bounds the validators of the fields enforce: the ones above, and for
    [cuff_pressure] also the upper end of its 32-bit column. *)
Definition out_of_bounds (self : PatientConsultation) : Prop :=
  (∃ n, cpk_mb self = Some n ∧ (n < 0 ∨ 100 < n)) ∨
  (∃ n, ett_tt self = Some n ∧ (n < 3 ∨ 10 < n)) ∨
  (∃ x, height self = Some x ∧ negative x) ∨
  (∃ x, weight self = Some x ∧ negative x) ∨
  (∃ n, cuff_pressure self = Some n ∧ (n < 0 ∨ 2147483647 < n)).

(** An entry of [clean_fields] that reports a bound: one of its errors has
    the code ['min_value'] or ['max_value']. *)
Definition reports_bound (entry : string * list ValidationError) : bool :=
  existsb (λ e, match e with
                | Invalid code => String.eqb code "min_value" || String.eqb code "max_value"
                end) entry.2.

(** ** Sample data

    One instantiation of what the file leaves open, and a small database, on
    which the statements below are exercised. *)
Module Sample.

Definition sc : SuggestionChoices.t :=
  {| SuggestionChoices.HI := "HI"; SuggestionChoices.A := "A";
     SuggestionChoices.R := "R"; SuggestionChoices.OP := "OP";
     SuggestionChoices.DC := "DC" |}.

Definition categories : gmap (option string) string :=
  reverse_choices [(Some "Mild", "Category-A"); (None, "UNCLASSIFIED")].

Definition schema : LinesSchema :=
  {| required := ["start_date"; "type"; "site"];
     conforms_otherwise := λ _, true |}.

(** A consultation of patient 1 at facility 1 with the given disposition. *)
Definition visit (code : string) (target : option rowid)
    (is_admitted : bool) (since : option datetime) : PatientConsultation :=
  {| pk := None; patient := Some 1%positive; facility := Some 1%positive;
     symptoms_onset_date := None; category := Some "Mild";
     examination_details := None;
     suggestion := Some code; referred_to := target;
     admitted := Some is_admitted; admission_date := since;
     height := Some 170.5%float; weight := Some 64%float; cpk_mb := Some 40;
     cuff_pressure := Some 25; ett_tt := Some 7;
     lines := JArr [] |}.

(** The same consultation with other measurements. *)
Definition measured (h w : option float) (cpk cuff ett : option Z) : PatientConsultation :=
  {| pk := None; patient := Some 1%positive; facility := Some 1%positive;
     symptoms_onset_date := None; category := Some "Mild";
     examination_details := None;
     suggestion := Some "HI"; referred_to := None;
     admitted := Some false; admission_date := None;
     height := h; weight := w; cpk_mb := cpk;
     cuff_pressure := cuff; ett_tt := ett;
     lines := JArr [] |}.

(** The same consultation with other lines. *)
Definition with_lines (content : json) : PatientConsultation :=
  {| pk := None; patient := Some 1%positive; facility := Some 1%positive;
     symptoms_onset_date := None; category := Some "Mild";
     examination_details := None;
     suggestion := Some "HI"; referred_to := None;
     admitted := Some false; admission_date := None;
     height := Some 170.5%float; weight := Some 64%float; cpk_mb := Some 40;
     cuff_pressure := Some 25; ett_tt := Some 7;
     lines := content |}.

Definition central_line : json :=
  JObj [("start_date", JStr "2021-03-01T10:00:00Z"); ("type", JStr "CENTRAL");
        ("site", JStr "LEFT_SUBCLAVIAN")].


(** One patient, two facilities, and a stored referral of the patient from
    facility 1 to facility 2. *)
Definition history : list operation :=
  [ CreatePatient {| patient_name := "P"; patient_facility := Some 1%positive |};
    CreateFacility {| facility_name := "F1" |};
    CreateFacility {| facility_name := "F2" |};
    Save (visit "R" (Some 2%positive) true (Some 1600000000)) ].

Definition db : Database := run_all sc history.

End Sample.

(** ** The rest of the model *)

(** [__str__]: [f"{self.patient.name}<>{self.facility.name}"].  Following a
    foreign key that is null, or whose row is gone, raises; [None] stands for
    that. *)
Definition __str__ (self : PatientConsultation) (db : Database) : option string :=
  match patient self ≫= (λ p, patients db !! p),
        facility self ≫= (λ f, facilities db !! f) with
  | Some p, Some f => Some (patient_name p ++ "<>" ++ facility_name f)
  | _, _ => None
  end.

(** The instance after [self.height = h; self.weight = w]. *)
Definition with_height_weight (h w : option float) (self : PatientConsultation)
  : PatientConsultation :=
  {| pk := pk self; patient := patient self; facility := facility self;
     symptoms_onset_date := symptoms_onset_date self; category := category self;
     examination_details := examination_details self;
     suggestion := suggestion self; referred_to := referred_to self;
     admitted := admitted self; admission_date := admission_date self;
     height := h; weight := w; cpk_mb := cpk_mb self;
     cuff_pressure := cuff_pressure self; ett_tt := ett_tt self;
     lines := lines self |}.

(** A consultation that field cleaning has nothing against but, possibly,
    its measurements: the suggestion is a code, every measurement is given,
    and [lines] holds one conforming entry. *)
Definition bedside (h w : float) (cpk cuff ett : Z) : PatientConsultation :=
  {| pk := None; patient := Some 1%positive; facility := Some 1%positive;
     symptoms_onset_date := None; category := Some "Mild";
     examination_details := None;
     suggestion := Some "HI"; referred_to := None;
     admitted := Some false; admission_date := None;
     height := Some h; weight := Some w; cpk_mb := Some cpk;
     cuff_pressure := Some cuff; ett_tt := Some ett;
     lines := JArr [Sample.central_line] |}.

(** A consultation of patient 1 at facility 1 that is sent home, yet names
    facility 2 as referral target and carries an admission date without being
    admitted. *)
Definition referred_home (sc : SuggestionChoices.t) : PatientConsultation :=
  {| pk := None; patient := Some 1%positive; facility := Some 1%positive;
     symptoms_onset_date := None; category := None;
     examination_details := None;
     suggestion := Some (SuggestionChoices.HI sc); referred_to := Some 2%positive;
     admitted := Some false; admission_date := Some 1600000000;
     height := None; weight := None; cpk_mb := None;
     cuff_pressure := None; ett_tt := None;
     lines := JArr [] |}.

Definition referred_home_history (sc : SuggestionChoices.t) : list operation :=
  [ CreatePatient {| patient_name := "P"; patient_facility := Some 1%positive |};
    CreateFacility {| facility_name := "F1" |};
    CreateFacility {| facility_name := "F2" |};
    Save (referred_home sc) ].

(** * Properties *)

(** ** What the two checks say *)

Lemma satisfies_if_referral_suggested sc row :
  satisfies (if_referral_suggested sc) row = true ↔
  (suggestion row = Some (SuggestionChoices.R sc) → referred_to row ≠ None).
Proof.
  unfold satisfies, if_referral_suggested, Q_or, Q_not, Q_exact, Q_isnull; simpl.
  destruct (suggestion row) as [s|], (referred_to row) as [f|]; simpl;
    try case_bool_decide; simpl; split; naive_solver.
Qed.

Lemma satisfies_if_admitted row :
  satisfies if_admitted row = true ↔
  (admitted row = Some true → admission_date row ≠ None).
Proof.
  unfold satisfies, if_admitted, Q_or, Q_exact, Q_isnull; simpl.
  destruct (admitted row) as [[]|], (admission_date row) as [d|]; simpl;
    split; naive_solver.
Qed.

Lemma check_violations_nil sc row :
  check_violations sc row = [] ↔
  satisfies (if_referral_suggested sc) row = true ∧ satisfies if_admitted row = true.
Proof.
  unfold check_violations, constraints; simpl.
  destruct (satisfies (if_referral_suggested sc) row),
           (satisfies if_admitted row); simpl; split; intros H;
    try done; destruct H; done.
Qed.

(** ** What [save] does *)

(** A row that the storage layer holds has passed the row-level conditions. *)
Definition row_ok (sc : SuggestionChoices.t) (row : PatientConsultation) : Prop :=
  null_violations row = [] ∧ check_violations sc row = [].

Lemma violations_nil sc db row :
  violations sc db row = [] ↔
  null_violations row = [] ∧ check_violations sc row = [] ∧
  foreign_key_violations db row = [].
Proof.
  unfold violations. rewrite !app_nil. tauto.
Qed.

Lemma save_raised sc self db :
  violations sc db self ≠ [] → ∃ e, save sc self db = (Raised e, db).
Proof.
  intros H. unfold save, PatientBaseModel_save.
  destruct (violations sc db self) as [|e rest]; [done|]. by exists e.
Qed.

Lemma save_saved sc self db :
  violations sc db self = [] →
  let k := default (fresh (dom (consultations db))) (pk self) in
  save sc self db =
    (Saved (with_pk k self),
     set_consultations (<[k := with_pk k self]> (consultations db)) db).
Proof.
  intros H. unfold save, PatientBaseModel_save. by rewrite H.
Qed.

Lemma save_consultations sc self db k row :
  consultations (save sc self db).2 !! k = Some row →
  consultations db !! k = Some row ∨
  (violations sc db self = [] ∧ row = with_pk k self).
Proof.
  unfold save, PatientBaseModel_save.
  destruct (violations sc db self) as [|e rest] eqn:E; simpl; [|by left].
  intros H. apply lookup_insert_Some in H as [[<- <-]|[_ H]]; [by right|by left].
Qed.

Lemma run_consultations sc op db k row :
  consultations (run sc op db) !! k = Some row →
  consultations db !! k = Some row ∨
  ∃ self, op = Save self ∧ violations sc db self = [] ∧ row = with_pk k self.
Proof.
  destruct op as [rec|rec|self|j|j|j]; simpl.
  - by left.
  - by left.
  - intros H. apply save_consultations in H as [H|H]; [by left|right; eauto].
  - intros H. apply lookup_delete_Some in H as [_ H]. by left.
  - intros H. apply map_lookup_filter_Some in H as [H _]. by left.
  - unfold delete_facility.
    destruct (map_to_list _) as [|x xs]; simpl; [|by left].
    intros H. apply map_lookup_filter_Some in H as [H _]. by left.
Qed.

Lemma stored_rows_ok sc db :
  reachable sc db → map_Forall (λ _ row, row_ok sc row) (consultations db).
Proof.
  induction 1 as [|op db Hdb IH].
  - apply map_Forall_empty.
  - intros k row Hrow.
    apply run_consultations in Hrow as [Hrow|(self & -> & Hv & ->)].
    + by apply (IH k).
    + apply violations_nil in Hv as (Hn & Hc & _). by split.
Qed.

Lemma reachable_run_all sc ops : reachable sc (run_all sc ops).
Proof.
  unfold run_all. induction ops as [|op ops IH] using rev_ind; simpl.
  - constructor.
  - rewrite foldl_app; simpl. by constructor.
Qed.

Lemma validated_save_db sc schema self db :
  (validated_save sc schema self db).2 = db ∨
  (validated_save sc schema self db).2 = (save sc self db).2.
Proof.
  unfold validated_save. destruct (clean_fields sc schema self); simpl; auto.
Qed.

(** ** The referral constraint *)

(** C1: in every database the application can reach, a stored consultation
    whose suggestion is REFERRAL has a non-null [referred_to]; saving an
    instance with suggestion REFERRAL and no [referred_to] raises and leaves
    the database as it was, with or without validation in front. *)
Theorem referral_rows_have_target sc db :
  reachable sc db →
  (∀ k row, consultations db !! k = Some row →
     suggestion row = Some (SuggestionChoices.R sc) → referred_to row ≠ None) ∧
  (∀ self, suggestion self = Some (SuggestionChoices.R sc) →
     referred_to self = None →
     (∃ e, save sc self db = (Raised e, db)) ∧
     ∀ schema, (validated_save sc schema self db).2 = db).
Proof.
  intros Hdb. split.
  - intros k row Hrow. destruct (stored_rows_ok sc db Hdb k row Hrow) as [_ Hc].
    apply check_violations_nil in Hc as [Hc _].
    by apply satisfies_if_referral_suggested.
  - intros self Hs Hr.
    assert (∃ e, save sc self db = (Raised e, db)) as [e He].
    { apply save_raised. intros Hv.
      apply violations_nil in Hv as (_ & Hc & _).
      apply check_violations_nil in Hc as [Hc _].
      by apply satisfies_if_referral_suggested in Hc. }
    split; [by exists e|]. intros schema.
    destruct (validated_save_db sc schema self db) as [->| ->]; [done|].
    by rewrite He.
Qed.

Lemma referral_rows_have_target_witness :
  reachable Sample.sc Sample.db ∧
  (∀ k row, consultations Sample.db !! k = Some row →
     suggestion row = Some "R" → referred_to row ≠ None) ∧
  (∀ self, suggestion self = Some "R" → referred_to self = None →
     (∃ e, save Sample.sc self Sample.db = (Raised e, Sample.db)) ∧
     ∀ schema, (validated_save Sample.sc schema self Sample.db).2 = Sample.db).
Proof.
  split.
  - apply reachable_run_all.
  - apply (referral_rows_have_target Sample.sc Sample.db), reachable_run_all.
Defined.

(** The sample database does hold a referral, and the write the constraint
    is there for is the one refused. *)
Example sample_referral_stored :
  map_to_list (consultations Sample.db) =
    [(1%positive, with_pk 1 (Sample.visit "R" (Some 2%positive) true (Some 1600000000)))].
Proof. vm_compute. reflexivity. Qed.

Example sample_referral_without_target :
  save Sample.sc (Sample.visit "R" None false None) Sample.db =
    (Raised (CheckViolation "if_referral_suggested"), Sample.db).
Proof. vm_compute. reflexivity. Qed.

(** ** The admission constraint *)

(** C2: in every database the application can reach, a stored consultation
    with [admitted] true has a non-null [admission_date]; saving an instance
    with [admitted] true and no [admission_date] raises and leaves the
    database as it was, with or without validation in front. *)
Theorem admitted_rows_have_date sc db :
  reachable sc db →
  (∀ k row, consultations db !! k = Some row →
     admitted row = Some true → admission_date row ≠ None) ∧
  (∀ self, admitted self = Some true → admission_date self = None →
     (∃ e, save sc self db = (Raised e, db)) ∧
     ∀ schema, (validated_save sc schema self db).2 = db).
Proof.
  intros Hdb. split.
  - intros k row Hrow. destruct (stored_rows_ok sc db Hdb k row Hrow) as [_ Hc].
    apply check_violations_nil in Hc as [_ Hc].
    by apply satisfies_if_admitted.
  - intros self Ha Hd.
    assert (∃ e, save sc self db = (Raised e, db)) as [e He].
    { apply save_raised. intros Hv.
      apply violations_nil in Hv as (_ & Hc & _).
      apply check_violations_nil in Hc as [_ Hc].
      by apply satisfies_if_admitted in Hc. }
    split; [by exists e|]. intros schema.
    destruct (validated_save_db sc schema self db) as [->| ->]; [done|].
    by rewrite He.
Qed.

Lemma admitted_rows_have_date_witness :
  reachable Sample.sc Sample.db ∧
  (∀ k row, consultations Sample.db !! k = Some row →
     admitted row = Some true → admission_date row ≠ None) ∧
  (∀ self, admitted self = Some true → admission_date self = None →
     (∃ e, save Sample.sc self Sample.db = (Raised e, Sample.db)) ∧
     ∀ schema, (validated_save Sample.sc schema self Sample.db).2 = Sample.db).
Proof.
  split.
  - apply reachable_run_all.
  - apply (admitted_rows_have_date Sample.sc Sample.db), reachable_run_all.
Defined.

Example sample_admitted_without_date :
  save Sample.sc (Sample.visit "A" None true None) Sample.db =
    (Raised (CheckViolation "if_admitted"), Sample.db).
Proof. vm_compute. reflexivity. Qed.

(** ** Neither converse is enforced *)

Lemma raised_is_violation sc self db e :
  (save sc self db).1 = Raised e → e ∈ violations sc db self.
Proof.
  unfold save, PatientBaseModel_save.
  destruct (violations sc db self) as [|e' rest]; simpl; [done|].
  intros [= <-]. apply elem_of_cons. by left.
Qed.

Lemma null_violation_kind row e :
  e ∈ null_violations row → ∃ column, e = NotNullViolation column.
Proof.
  unfold null_violations. rewrite !elem_of_app.
  destruct (patient row), (facility row), (suggestion row), (admitted row), (lines row);
    simpl; rewrite ?elem_of_cons, ?elem_of_nil; intros H;
    repeat (destruct H as [H|H]); try done; subst; by eexists.
Qed.

Lemma foreign_key_violation_kind db row e :
  e ∈ foreign_key_violations db row → ∃ column, e = ForeignKeyViolation column.
Proof.
  unfold foreign_key_violations. rewrite !elem_of_app.
  destruct (dangling (patients db) (patient row)),
    (dangling (facilities db) (facility row)),
    (dangling (facilities db) (referred_to row));
    simpl; rewrite ?elem_of_cons, ?elem_of_nil; intros H;
    repeat (destruct H as [H|H]); try done; subst; by eexists.
Qed.

(** A check is named in the error only when the row fails that very check. *)
Lemma check_violation_raised sc self db constraint :
  (save sc self db).1 = Raised (CheckViolation constraint) →
  (constraint = "if_referral_suggested" ∧
   satisfies (if_referral_suggested sc) self = false) ∨
  (constraint = "if_admitted" ∧ satisfies if_admitted self = false).
Proof.
  intros Hraised. apply raised_is_violation in Hraised.
  unfold violations in Hraised. rewrite !elem_of_app in Hraised.
  destruct Hraised as [H|[H|H]].
  - by apply null_violation_kind in H as [? [=]].
  - unfold check_violations, constraints in H. simpl in H.
    destruct (satisfies (if_referral_suggested sc) self),
      (satisfies if_admitted self); simpl in H;
      rewrite ?elem_of_cons, ?elem_of_nil in H;
      repeat (destruct H as [H|H]); try done; injection H as ->; auto.
  - by apply foreign_key_violation_kind in H as [? [=]].
Qed.

(** C10: a row with a referral target whose suggestion is not REFERRAL passes
    [if_referral_suggested], and when [save] refuses such a row it is never
    for that check; a row with an admission date that is not admitted passes
    [if_admitted], and when [save] refuses such a row it is never for that
    check.  Neither converse is an invariant of the stored rows: with a code
    for home isolation that the column can hold and that differs from the
    one for referral, the application reaches a database that holds a row
    sent home with a referral target and with an admission date without
    being admitted. *)
Theorem checks_are_one_directional sc :
  (∀ row, referred_to row ≠ None →
     suggestion row ≠ Some (SuggestionChoices.R sc) →
     satisfies (if_referral_suggested sc) row = true) ∧
  (∀ row, admission_date row ≠ None → admitted row = Some false →
     satisfies if_admitted row = true) ∧
  (∀ db self e,
     (save sc self db).1 = Raised e →
     referred_to self ≠ None → suggestion self ≠ Some (SuggestionChoices.R sc) →
     e ≠ CheckViolation "if_referral_suggested") ∧
  (∀ db self e,
     (save sc self db).1 = Raised e →
     admission_date self ≠ None → admitted self = Some false →
     e ≠ CheckViolation "if_admitted") ∧
  (SuggestionChoices.storable sc →
   SuggestionChoices.HI sc ≠ SuggestionChoices.R sc →
   reachable sc (run_all sc (referred_home_history sc)) ∧
   ∃ k row,
     consultations (run_all sc (referred_home_history sc)) !! k = Some row ∧
     suggestion row = Some (SuggestionChoices.HI sc) ∧
     referred_to row = Some 2%positive ∧
     admitted row = Some false ∧ admission_date row = Some 1600000000).
Proof.
  assert (∀ row, suggestion row ≠ Some (SuggestionChoices.R sc) →
                 satisfies (if_referral_suggested sc) row = true) as Hr.
  { intros row Hs. by apply satisfies_if_referral_suggested. }
  assert (∀ row, admitted row = Some false → satisfies if_admitted row = true) as Ha.
  { intros row Hrow. apply satisfies_if_admitted. congruence. }
  split_and!; [auto|auto| | |].
  - intros db self e Hraised _ Hs ->.
    apply check_violation_raised in Hraised as [[_ Hfail]|[[=] _]].
    by rewrite Hr in Hfail.
  - intros db self e Hraised _ Hadm ->.
    apply check_violation_raised in Hraised as [[[=] _]|[_ Hfail]].
    by rewrite Ha in Hfail.
  - intros _ Hne. split; [apply reachable_run_all|].
    unfold run_all, referred_home_history. simpl.
    rewrite save_saved.
    + eexists _, _. simpl. split; [apply lookup_insert_eq|]. by split_and!.
    + apply violations_nil. split_and!.
      * reflexivity.
      * apply check_violations_nil. split; [apply Hr|by apply Ha].
        simpl. congruence.
      * vm_compute. reflexivity.
Qed.

Lemma checks_are_one_directional_witness :
  SuggestionChoices.storable Sample.sc ∧
  SuggestionChoices.HI Sample.sc ≠ SuggestionChoices.R Sample.sc ∧
  reachable Sample.sc (run_all Sample.sc (referred_home_history Sample.sc)) ∧
  ∃ k row,
    consultations (run_all Sample.sc (referred_home_history Sample.sc)) !! k = Some row ∧
    suggestion row = Some "HI" ∧ referred_to row = Some 2%positive ∧
    admitted row = Some false ∧ admission_date row = Some 1600000000.
Proof.
  assert (SuggestionChoices.storable Sample.sc) as Hst.
  { unfold SuggestionChoices.storable, SuggestionChoices.codes; simpl.
    repeat constructor; (done || (simpl; lia)). }
  assert (SuggestionChoices.HI Sample.sc ≠ SuggestionChoices.R Sample.sc) as Hne
    by done.
  pose proof (checks_are_one_directional Sample.sc) as (_ & _ & _ & _ & Hstored).
  split; [exact Hst|]. split; [exact Hne|]. exact (Hstored Hst Hne).
Defined.

Example sample_converse_rows_stored :
  let db := run_all Sample.sc
              (Sample.history ++
               [Save (Sample.visit "HI" (Some 2%positive) true (Some 1600000000));
                Save (Sample.visit "OP" None false (Some 1600000000))]) in
  (λ k, (λ row, (suggestion row, referred_to row, admitted row, admission_date row))
          <$> consultations db !! k) <$> [1%positive; 2%positive; 3%positive]
  = [ Some (Some "R", Some 2%positive, Some true, Some 1600000000);
      Some (Some "HI", Some 2%positive, Some true, Some 1600000000);
      Some (Some "OP", None, Some false, Some 1600000000) ].
Proof. vm_compute. reflexivity. Qed.

(** ** Deleting what a consultation refers to *)

(** C8: deleting the patient of a stored consultation deletes the consultation
    with it (and no consultation of another patient); deleting a facility that
    a stored consultation names as [referred_to] raises and leaves the
    database, the facility included, as it was. *)
Theorem patient_cascades_referral_target_protected db k row :
  consultations db !! k = Some row →
  (∀ p, patient row = Some p →
     patients (delete_patient p db) !! p = None ∧
     consultations (delete_patient p db) !! k = None ∧
     ∀ k' row', consultations db !! k' = Some row' → patient row' ≠ Some p →
                consultations (delete_patient p db) !! k' = Some row') ∧
  (∀ f, referred_to row = Some f →
     (∃ e, delete_facility f db = (Some e, db)) ∧
     facilities (delete_facility f db).2 !! f = facilities db !! f).
Proof.
  intros Hrow. split.
  - intros p Hp. unfold delete_patient; simpl. split; [apply lookup_delete_eq|].
    split.
    + apply map_lookup_filter_None. right. intros row' Hrow'. simpl.
      rewrite Hrow in Hrow'. injection Hrow' as <-. by intros [].
    + intros k' row' Hrow' Hne. by apply map_lookup_filter_Some.
  - intros f Hf.
    assert (∃ e, delete_facility f db = (Some e, db)) as [e He].
    { unfold delete_facility.
      destruct (map_to_list _) as [|x xs] eqn:E; [|by eexists].
      apply map_to_list_empty_iff in E.
      assert (filter (λ kv : rowid * PatientConsultation, referred_to kv.2 = Some f)
                (consultations db) !! k = Some row) as Hk
        by (by apply map_lookup_filter_Some).
      rewrite E in Hk. by rewrite lookup_empty in Hk. }
    split; [by exists e|]. by rewrite He.
Qed.

Lemma patient_cascades_referral_target_protected_witness :
  let row := with_pk 1 (Sample.visit "R" (Some 2%positive) true (Some 1600000000)) in
  consultations Sample.db !! 1%positive = Some row ∧
  consultations (delete_patient 1 Sample.db) !! 1%positive = None ∧
  (∃ e, delete_facility 2 Sample.db = (Some e, Sample.db)).
Proof.
  assert (consultations Sample.db !! 1%positive =
          Some (with_pk 1 (Sample.visit "R" (Some 2%positive) true (Some 1600000000))))
    as Hrow by (vm_compute; reflexivity).
  destruct (patient_cascades_referral_target_protected Sample.db 1%positive _ Hrow)
    as [Hp Hf].
  split; [exact Hrow|]. split.
  - by apply (Hp 1%positive).
  - by apply (Hf 2%positive).
Defined.

(** Facility 1 is nobody's referral target: deleting it goes through and takes
    its consultation along. *)
Example sample_facility_cascade :
  (delete_facility 1 Sample.db).1 = None ∧
  map_to_list (consultations (delete_facility 1 Sample.db).2) = [].
Proof. vm_compute. done. Qed.

(** ** [save] and the patient *)

(** C9: [save] leaves the patient table (hence the facility and every other
    field of every patient) and the facility table as they were, whatever the
    instance, referred or not, and whether or not the write is accepted. *)
Theorem save_leaves_patients sc self db :
  patients (save sc self db).2 = patients db ∧
  facilities (save sc self db).2 = facilities db.
Proof.
  unfold save, PatientBaseModel_save.
  by destruct (violations sc db self).
Qed.

(** The statements in the docstring of [save] would have moved the patient. *)
Example docstring_would_move_patient :
  let self := Sample.visit "R" (Some 2%positive) true (Some 1600000000) in
  patient_facility <$> patients Sample.db !! 1%positive = Some (Some 1%positive) ∧
  patient_facility <$> patients (save Sample.sc self Sample.db).2 !! 1%positive
    = Some (Some 1%positive) ∧
  patient_facility <$> patients (hospital_change_on_referral self Sample.db) !! 1%positive
    = Some (Some 2%positive).
Proof. vm_compute. done. Qed.

(** ** Numeric bounds *)

Lemma min_max_errors (lo hi : Z) (f : Field Z) (value : option Z) :
  validators f = [MinValueValidator lo; MaxValueValidator hi] →
  Field_run_validators f value ≠ [] ↔ ∃ n, value = Some n ∧ (n < lo ∨ hi < n).
Proof.
  intros Hf. unfold Field_run_validators. destruct value as [n|]; simpl.
  - rewrite Hf; simpl. unfold MinValueValidator, MaxValueValidator; simpl.
    destruct (Z.ltb_spec n lo), (Z.gtb_spec n hi); simpl;
      split; try done; try (intros _; exists n; split; [done|lia]).
    intros (m & [= <-] & Hm). lia.
  - split; [done|]. by intros (n & ? & _).
Qed.

Lemma float_min_zero_errors (f : Field float) (value : option float) :
  validators f = [MinValueValidator 0] →
  Field_run_validators f value ≠ [] ↔ ∃ x, value = Some x ∧ negative x.
Proof.
  intros Hf. unfold Field_run_validators, negative. destruct value as [x|]; simpl.
  - rewrite Hf; simpl. unfold MinValueValidator; simpl.
    destruct (PrimFloat.ltb x PrimFloat.zero) eqn:E; simpl; split; try done.
    + intros _. by exists x.
    + intros (y & [= <-] & Hy). congruence.
  - split; [done|]. by intros (x & ? & _).
Qed.


Lemma validated_save_rejects sc schema self db :
  clean_fields sc schema self ≠ [] →
  ∃ errors, validated_save sc schema self db = (Rejected errors, db).
Proof.
  intros H. unfold validated_save.
  destruct (clean_fields sc schema self); [done|]. by eexists.
Qed.

(** The bounds are inclusive, a null is let through, and so are [-0.0] and
    NaN, which IEEE comparison does not put below zero. *)
Example sample_measurements :
  numeric_validator_errors
    (Sample.measured (Some 0%float) None (Some 100) (Some 0) (Some 3)) =
    [("height", []); ("weight", []); ("cpk_mb", []); ("cuff_pressure", []); ("ett_tt", [])] ∧
  numeric_validator_errors
    (Sample.measured (Some (-0.5)%float) (Some (-0)%float) (Some 101) (Some (-1)) (Some 11)) =
    [("height", [Invalid "min_value"]); ("weight", []); ("cpk_mb", [Invalid "max_value"]);
     ("cuff_pressure", [Invalid "min_value"]); ("ett_tt", [Invalid "max_value"])] ∧
  numeric_validator_errors
    (Sample.measured (Some PrimFloat.nan) None (Some (-1)) None (Some 2)) =
    [("height", []); ("weight", []); ("cpk_mb", [Invalid "min_value"]);
     ("cuff_pressure", []); ("ett_tt", [Invalid "min_value"])].
Proof. vm_compute. done. Qed.

(** ** CSV export *)

Section ReverseChoices.
Context `{Countable K}.
Implicit Types (choices : list (K * string)) (output : gmap K string).

(** The loop of [reverse_choices], started from any table. *)
Lemma fill_unlisted choices output key :
  key ∉ choices.*1 →
  foldl (λ output choice, <[choice.1 := choice.2]> output) output choices !! key
  = output !! key.
Proof.
  revert output. induction choices as [|[k v] choices IH]; intros output Hkey; [done|].
  simpl in *. apply not_elem_of_cons in Hkey as [Hne Hkey].
  rewrite IH by done. by rewrite lookup_insert_ne.
Qed.

Lemma fill_listed choices output key label :
  NoDup choices.*1 → (key, label) ∈ choices →
  foldl (λ output choice, <[choice.1 := choice.2]> output) output choices !! key
  = Some label.
Proof.
  revert output. induction choices as [|[k v] choices IH]; intros output Hnd Hin.
  - by apply elem_of_nil in Hin.
  - simpl in *. apply NoDup_cons in Hnd as [Hk Hnd].
    apply elem_of_cons in Hin as [[= <- <-]|Hin].
    + rewrite fill_unlisted by done. apply lookup_insert_eq.
    + by apply IH.
Qed.

Lemma reverse_choices_listed choices key label :
  NoDup choices.*1 → (key, label) ∈ choices →
  reverse_choices choices !! key = Some label.
Proof. apply fill_listed. Qed.

Lemma reverse_choices_unlisted choices key :
  key ∉ choices.*1 → reverse_choices choices !! key = None.
Proof.
  intros Hkey. unfold reverse_choices.
  rewrite fill_unlisted by done. apply lookup_empty.
Qed.
End ReverseChoices.

(** C4: the printer registered for [category] returns the label the category
    table holds for its argument and ["-"] when the table has none; the
    printer registered for [suggestion] returns the label paired with a code
    in [SUGGESTION_CHOICES] and ["-"] for anything that is not one of the
    codes ([None] included).  The five codes are taken to be distinct. *)
Theorem pretty_printers_translate sc categories :
  NoDup (SuggestionChoices.codes sc) →
  ∃ pretty_category pretty_suggestion,
    make_pretty sc categories "category" = Some pretty_category ∧
    make_pretty sc categories "suggestion" = Some pretty_suggestion ∧
    (∀ x label, categories !! x = Some label → pretty_category x = label) ∧
    (∀ x, categories !! x = None → pretty_category x = "-") ∧
    (∀ code label, (Some code, label) ∈ SUGGESTION_CHOICES sc →
                   pretty_suggestion (Some code) = label) ∧
    (∀ x, x ∉ (SUGGESTION_CHOICES sc).*1 → pretty_suggestion x = "-").
Proof.
  intros Hnd. eexists _, _.
  split; [reflexivity|]. split; [reflexivity|].
  assert (NoDup (SUGGESTION_CHOICES sc).*1) as Hkeys.
  { change (NoDup (Some <$> SuggestionChoices.codes sc)).
    by apply (NoDup_fmap_2 Some). }
  unfold dict_get, REVERSE_SUGGESTION_CHOICES. repeat split.
  - intros x label Hx. simpl. by rewrite Hx.
  - intros x Hx. simpl. by rewrite Hx.
  - intros code label Hin. simpl. by rewrite (reverse_choices_listed _ _ label).
  - intros x Hx. simpl. by rewrite reverse_choices_unlisted.
Qed.

Lemma pretty_printers_translate_witness :
  NoDup (SuggestionChoices.codes Sample.sc) ∧
  ∃ pretty_category pretty_suggestion,
    make_pretty Sample.sc Sample.categories "category" = Some pretty_category ∧
    make_pretty Sample.sc Sample.categories "suggestion" = Some pretty_suggestion ∧
    (∀ x label, Sample.categories !! x = Some label → pretty_category x = label) ∧
    (∀ x, Sample.categories !! x = None → pretty_category x = "-") ∧
    (∀ code label, (Some code, label) ∈ SUGGESTION_CHOICES Sample.sc →
                   pretty_suggestion (Some code) = label) ∧
    (∀ x, x ∉ (SUGGESTION_CHOICES Sample.sc).*1 → pretty_suggestion x = "-").
Proof.
  assert (NoDup (SuggestionChoices.codes Sample.sc)) as Hnd.
  { apply (bool_decide_unpack _). vm_compute. exact I. }
  split; [exact Hnd|].
  exact (pretty_printers_translate Sample.sc Sample.categories Hnd).
Defined.

Example sample_pretty :
  (λ pretty, pretty <$> [Some "HI"; Some "A"; Some "R"; Some "OP"; Some "DC";
                         Some "XX"; Some ""; None])
    <$> make_pretty Sample.sc Sample.categories "suggestion"
  = Some ["HOME ISOLATION"; "ADMISSION"; "REFERRAL"; "OP CONSULTATION";
          "DOMICILIARY CARE"; "-"; "-"; "-"] ∧
  (λ pretty, pretty <$> [Some "Mild"; Some "Comfort"; None])
    <$> make_pretty Sample.sc Sample.categories "category"
  = Some ["Category-A"; "-"; "UNCLASSIFIED"].
Proof. vm_compute. done. Qed.

(** C7: [CSV_MAPPING] is an ordered table of seven distinct field names with
    their column titles, from [consultation_created_date] to [suggestion]; the
    fields with a registered printer are [category] and [suggestion], both of
    them exported, and no other. *)
Theorem csv_tables sc categories :
  CSV_MAPPING.*1 =
    ["consultation_created_date"; "admission_date"; "symptoms_onset_date";
     "symptoms"; "category"; "examination_details"; "suggestion"] ∧
  CSV_MAPPING.*2 =
    ["Date of Consultation"; "Date of Admission"; "Date of Onset of Symptoms";
     "Symptoms at time of consultation"; "Category"; "Examination Details";
     "Suggestion"] ∧
  length CSV_MAPPING = 7%nat ∧
  head CSV_MAPPING.*1 = Some "consultation_created_date" ∧
  last CSV_MAPPING.*1 = Some "suggestion" ∧
  NoDup CSV_MAPPING.*1 ∧
  (CSV_MAKE_PRETTY sc categories).*1 = ["category"; "suggestion"] ∧
  (∀ field_name,
     is_Some (make_pretty sc categories field_name) ↔
     field_name = "category" ∨ field_name = "suggestion") ∧
  (∀ field_name,
     field_name ∈ CSV_MAPPING.*1 ∧ is_Some (make_pretty sc categories field_name) ↔
     field_name = "category" ∨ field_name = "suggestion").
Proof.
  assert (∀ field_name,
     is_Some (make_pretty sc categories field_name) ↔
     field_name = "category" ∨ field_name = "suggestion") as Hpretty.
  { intros field_name.
    cbv [make_pretty dict_item CSV_MAKE_PRETTY List.find fst].
    destruct (String.eqb_spec "category" field_name) as [<-|Hc].
    { split; [by left|by eexists]. }
    destruct (String.eqb_spec "suggestion" field_name) as [<-|Hs].
    { split; [by right|by eexists]. }
    split; [by intros [? [=]]|]. by intros [->| ->]. }
  assert (∀ field_name, field_name = "category" ∨ field_name = "suggestion" →
                        field_name ∈ CSV_MAPPING.*1) as Hexported.
  { intros ? [->| ->]; apply (bool_decide_unpack _); vm_compute; exact I. }
  split_and!; try reflexivity; try exact Hpretty.
  - apply (bool_decide_unpack _). vm_compute. exact I.
  - intros field_name. rewrite Hpretty. split; [tauto|]. auto.
Qed.

(** A null measurement passes the declared validators, which are not run on
    it; cleaning the field still refuses it, because the field is declared
    with [null=True] but without [blank=True]. *)
Example sample_null_measurement :
  Field_run_validators height_field None = [] ∧
  Field_clean height_field None = [Invalid "blank"] ∧
  Field_clean height_field (Some 170.5%float) = [].
Proof. vm_compute. done. Qed.

(** ** The [suggestion] field *)

Lemma suggestion_choice_found sc s :
  existsb (λ choice, eq_or_none (Some s) choice.1) (SUGGESTION_CHOICES sc) = true ↔
  s ∈ SuggestionChoices.codes sc.
Proof.
  unfold SUGGESTION_CHOICES, SuggestionChoices.codes.
  cbv [existsb eq_or_none fst py_eq str_eq].
  rewrite !orb_true_iff, !String.eqb_eq, !elem_of_cons, elem_of_nil.
  intuition congruence.
Qed.

Lemma suggestion_validate sc value :
  Field_validate (suggestion_field sc) value =
    match value with
    | None => Some (Invalid "null")
    | Some s =>
        if bool_decide (s = "") then Some (Invalid "blank")
        else if bool_decide (s ∈ SuggestionChoices.codes sc) then None
        else Some (Invalid "invalid_choice")
    end.
Proof.
  unfold Field_validate, validate_empty, suggestion_field, CharField.
  cbn [choices null blank].
  destruct value as [s|]; [|done].
  cbn [is_empty is_null negb andb]. unfold in_empty_values, str_value.
  case_bool_decide; cbn [negb]; [done|].
  pose proof (suggestion_choice_found sc s) as Hfound.
  destruct (existsb _ _); case_bool_decide; try done.
  - destruct Hfound as [Hfound _]. by specialize (Hfound eq_refl).
  - destruct Hfound as [_ Hfound]. by specialize (Hfound ltac:(done)).
Qed.

(** C6: [suggestion] is declared without [null], [blank] or [default]; its
    choices carry the five labels HOME ISOLATION, ADMISSION, REFERRAL, OP
    CONSULTATION and DOMICILIARY CARE, keyed by the five codes; cleaning the
    field accepts a value exactly when it is one of the five codes, a missing
    or empty value is refused as such and any other value as an invalid
    choice, and an instance with such a value does not get past validation.
    The codes are taken to be non-empty and at most four characters long. *)
Theorem suggestion_required_one_of_five sc :
  SuggestionChoices.storable sc →
  (null (suggestion_field sc) = false ∧ blank (suggestion_field sc) = false ∧
   default_kwarg (suggestion_field sc) = None) ∧
  ((SUGGESTION_CHOICES sc).*1 = Some <$> SuggestionChoices.codes sc ∧
   (SUGGESTION_CHOICES sc).*2 =
     ["HOME ISOLATION"; "ADMISSION"; "REFERRAL"; "OP CONSULTATION"; "DOMICILIARY CARE"]) ∧
  (∀ value, Field_clean (suggestion_field sc) value = [] ↔
            ∃ code, code ∈ SuggestionChoices.codes sc ∧ value = Some code) ∧
  (Field_clean (suggestion_field sc) None = [Invalid "null"] ∧
   Field_clean (suggestion_field sc) (Some "") = [Invalid "blank"] ∧
   ∀ s, s ≠ "" → s ∉ SuggestionChoices.codes sc →
        Field_clean (suggestion_field sc) (Some s) = [Invalid "invalid_choice"]) ∧
  (∀ schema self db,
     (∀ code, code ∈ SuggestionChoices.codes sc → suggestion self ≠ Some code) →
     ∃ errors, validated_save sc schema self db = (Rejected errors, db)).
Proof.
  intros Hst.
  assert (∀ value, Field_clean (suggestion_field sc) value = [] ↔
            ∃ code, code ∈ SuggestionChoices.codes sc ∧ value = Some code) as Hclean.
  { intros value. unfold Field_clean. rewrite suggestion_validate.
    destruct value as [s|]; [|split; [done|by intros (? & _ & ?)]].
    case_bool_decide as Hempty.
    { split; [done|]. intros (code & Hcode & [= <-]). subst.
      unfold SuggestionChoices.storable in Hst.
      rewrite Forall_forall in Hst. by destruct (Hst _ Hcode). }
    case_bool_decide as Hcode; [|split; [done|]; by intros (code & ? & [= <-])].
    split; [by exists s|]. intros _.
    unfold Field_run_validators, in_empty_values, str_value.
    rewrite bool_decide_eq_false_2 by done. simpl.
    unfold MaxLengthValidator.
    unfold SuggestionChoices.storable in Hst. rewrite Forall_forall in Hst.
    destruct (Hst _ Hcode) as [_ Hlen].
    by rewrite (proj2 (Nat.ltb_ge _ _) Hlen). }
  split_and!; try reflexivity; try exact Hclean.
  - intros s Hs Hcode. unfold Field_clean. rewrite suggestion_validate.
    by rewrite bool_decide_eq_false_2, bool_decide_eq_false_2.
  - intros schema self db Hother. apply validated_save_rejects.
    unfold clean_fields. intros Hnil. apply app_nil in Hnil as [Hnil _].
    unfold clean_field in Hnil. simpl in Hnil.
    destruct (Field_clean (suggestion_field sc) (suggestion self)) eqn:E; [|done].
    apply Hclean in E as (code & Hcode & E). by apply (Hother code).
Qed.

Lemma suggestion_required_one_of_five_witness :
  SuggestionChoices.storable Sample.sc ∧
  (∀ value, Field_clean (suggestion_field Sample.sc) value = [] ↔
            ∃ code, code ∈ ["HI"; "A"; "R"; "OP"; "DC"] ∧ value = Some code) ∧
  (∃ errors, validated_save Sample.sc Sample.schema
               (Sample.visit "XX" None false None) Sample.db
             = (Rejected errors, Sample.db)).
Proof.
  assert (SuggestionChoices.storable Sample.sc) as Hst.
  { unfold SuggestionChoices.storable, SuggestionChoices.codes; simpl.
    repeat constructor; (done || (simpl; lia)). }
  destruct (suggestion_required_one_of_five Sample.sc Hst) as (_ & _ & Hclean & _ & Hsave).
  split; [exact Hst|]. split; [exact Hclean|].
  apply Hsave. intros code Hcode.
  unfold SuggestionChoices.codes in Hcode; simpl in Hcode.
  rewrite !elem_of_cons, elem_of_nil in Hcode. simpl. intros [= <-].
  destruct Hcode as [?|[?|[?|[?|[?|[]]]]]]; discriminate.
Defined.

Example sample_suggestions :
  Field_clean (suggestion_field Sample.sc) <$>
    [Some "HI"; Some "A"; Some "R"; Some "OP"; Some "DC"; Some "XX"; Some "HOME"; Some ""; None]
  = [[]; []; []; []; []; [Invalid "invalid_choice"]; [Invalid "invalid_choice"];
     [Invalid "blank"]; [Invalid "null"]].
Proof. vm_compute. done. Qed.

(** ** The [lines] field *)






(** ** Numeric bounds, at the validators and in field cleaning *)

Lemma int_field_bound_entry field_name (f : Field Z) (lo hi : Z) value :
  null f = true → blank f = false → choices f = NoChoices →
  validators f = [MinValueValidator lo; MaxValueValidator hi] →
  Exists (λ entry, reports_bound entry = true) (clean_field field_name f value) ↔
  ∃ n, value = Some n ∧ (n < lo ∨ hi < n).
Proof.
  intros Hn Hb Hc Hv.
  unfold clean_field, Field_clean, Field_validate, validate_empty, Field_run_validators.
  rewrite Hn, Hb, Hc, Hv. destruct value as [n|]; simpl.
  - unfold MinValueValidator, MaxValueValidator; simpl.
    destruct (Z.ltb_spec n lo), (Z.gtb_spec n hi); simpl;
      rewrite ?Exists_cons, ?Exists_nil; simpl.
    + split; [intros _; exists n; split; [done|lia]|intros _; by left].
    + split; [intros _; exists n; split; [done|lia]|intros _; by left].
    + split; [intros _; exists n; split; [done|lia]|intros _; by left].
    + split; [done|]. intros (m & [= <-] & Hm). lia.
  - rewrite Exists_cons, Exists_nil. simpl. split; [by intros [[=]|[]]|].
    by intros (n & ? & _).
Qed.

Lemma float_field_bound_entry field_name (f : Field float) value :
  null f = true → blank f = false → choices f = NoChoices →
  validators f = [MinValueValidator 0] →
  Exists (λ entry, reports_bound entry = true) (clean_field field_name f value) ↔
  ∃ x, value = Some x ∧ negative x.
Proof.
  intros Hn Hb Hc Hv.
  unfold clean_field, Field_clean, Field_validate, validate_empty, Field_run_validators,
    negative.
  rewrite Hn, Hb, Hc, Hv. destruct value as [x|]; simpl.
  - unfold MinValueValidator; simpl.
    destruct (PrimFloat.ltb x PrimFloat.zero) eqn:E; simpl;
      rewrite ?Exists_cons, ?Exists_nil; simpl; split.
    + intros _. by exists x.
    + intros _. by left.
    + done.
    + intros (y & [= <-] & Hy). congruence.
  - rewrite Exists_cons, Exists_nil. simpl. split; [by intros [[=]|[]]|].
    by intros (x & ? & _).
Qed.

Lemma suggestion_entry_reports_no_bound sc value :
  ¬ Exists (λ entry, reports_bound entry = true)
      (clean_field "suggestion" (suggestion_field sc) value).
Proof.
  unfold clean_field, Field_clean. rewrite suggestion_validate.
  assert (blank (suggestion_field sc) = false) as -> by reflexivity.
  rewrite andb_false_l.
  destruct value as [s|]; [|by rewrite Exists_cons, Exists_nil; intros [[=]|[]]].
  case_bool_decide as Hempty; [by rewrite Exists_cons, Exists_nil; intros [[=]|[]]|].
  case_bool_decide as Hcode; [|by rewrite Exists_cons, Exists_nil; intros [[=]|[]]].
  unfold Field_run_validators, in_empty_values, str_value.
  rewrite bool_decide_eq_false_2 by done.
  assert (validators (suggestion_field sc) = [MaxLengthValidator 4]) as -> by reflexivity.
  simpl. unfold MaxLengthValidator.
  destruct (4 <? String.length s)%nat; simpl;
    rewrite ?Exists_cons, ?Exists_nil; [by intros [[=]|[]]|by intros []].
Qed.

Lemma schema_validator_code schema value e :
  JSONFieldSchemaValidator schema value = Some e → e = Invalid "schema".
Proof.
  unfold JSONFieldSchemaValidator.
  destruct value as [| | | |items|]; try by intros [= <-].
  destruct (forallb _ items); [done|by intros [= <-]].
Qed.

Lemma lines_entry_reports_no_bound schema value :
  ¬ Exists (λ entry, reports_bound entry = true)
      (clean_field "lines" (lines_field schema) value).
Proof.
  unfold clean_field, Field_clean, Field_validate, validate_empty, Field_run_validators.
  assert (blank (lines_field schema) = false) as -> by reflexivity.
  assert (null (lines_field schema) = false) as -> by reflexivity.
  assert (choices (lines_field schema) = NoChoices) as -> by reflexivity.
  assert (validators (lines_field schema) = [JSONFieldSchemaValidator schema])
    as -> by reflexivity.
  destruct value as [v|]; simpl; [|by rewrite Exists_cons, Exists_nil; intros [[=]|[]]].
  destruct (in_empty_values v); simpl;
    [by rewrite Exists_cons, Exists_nil; intros [[=]|[]]|].
  destruct (JSONFieldSchemaValidator schema v) as [e|] eqn:E; simpl;
    [|rewrite Exists_nil; by intros []].
  apply schema_validator_code in E as ->.
  rewrite Exists_cons, Exists_nil. by intros [[=]|[]].
Qed.

(** C3: the numeric validators of the five fields (the declared ones and, on
    [cuff_pressure], the upper end of the 32-bit column that [IntegerField]
    adds) report an error exactly when [cpk_mb] is outside 0..100, [ett_tt]
    is outside 3..10, [height] or [weight] is below zero, or [cuff_pressure]
    is outside 0..2147483647; a value within these bounds, and a null, passes
    them.  Field cleaning files an error with code [min_value] or [max_value]
    in exactly those cases, and the write is then refused with the database
    as it was. *)
Theorem numeric_bounds_enforced sc schema self :
  (Exists (λ entry, entry.2 ≠ []) (numeric_validator_errors self) ↔
   out_of_bounds self) ∧
  (Exists (λ entry, reports_bound entry = true) (clean_fields sc schema self) ↔
   out_of_bounds self) ∧
  (out_of_bounds self →
   clean_fields sc schema self ≠ [] ∧
   ∀ db, ∃ errors, validated_save sc schema self db = (Rejected errors, db)).
Proof.
  assert (Exists (λ entry : string * list ValidationError, entry.2 ≠ [])
            (numeric_validator_errors self) ↔ out_of_bounds self) as Hiff.
  { unfold numeric_validator_errors, out_of_bounds.
    rewrite !Exists_cons, Exists_nil; simpl.
    rewrite (float_min_zero_errors height_field) by reflexivity.
    rewrite (float_min_zero_errors weight_field) by reflexivity.
    rewrite (min_max_errors 0 100 cpk_mb_field) by reflexivity.
    rewrite (min_max_errors 0 2147483647 cuff_pressure_field) by reflexivity.
    rewrite (min_max_errors 3 10 ett_tt_field) by reflexivity.
    tauto. }
  assert (Exists (λ entry, reports_bound entry = true) (clean_fields sc schema self) ↔
          out_of_bounds self) as Hfiled.
  { unfold clean_fields, out_of_bounds. rewrite !Exists_app.
    rewrite (float_field_bound_entry "height" height_field) by reflexivity.
    rewrite (float_field_bound_entry "weight" weight_field) by reflexivity.
    rewrite (int_field_bound_entry "cpk_mb" cpk_mb_field 0 100) by reflexivity.
    rewrite (int_field_bound_entry "cuff_pressure" cuff_pressure_field 0 2147483647)
      by reflexivity.
    rewrite (int_field_bound_entry "ett_tt" ett_tt_field 3 10) by reflexivity.
    pose proof (suggestion_entry_reports_no_bound sc (suggestion self)).
    pose proof (lines_entry_reports_no_bound schema (lines_value self)).
    tauto. }
  split; [exact Hiff|]. split; [exact Hfiled|].
  intros Hout.
  assert (clean_fields sc schema self ≠ []) as Hne.
  { apply Hfiled in Hout. intros Hnil. rewrite Hnil in Hout.
    by apply Exists_nil in Hout. }
  split; [done|]. intros db. by apply validated_save_rejects.
Qed.

Lemma numeric_bounds_enforced_witness :
  let low_tube := bedside 170.5 64 40 25 2 in
  out_of_bounds low_tube ∧
  clean_fields Sample.sc Sample.schema low_tube ≠ [] ∧
  ∃ errors, validated_save Sample.sc Sample.schema low_tube Sample.db
            = (Rejected errors, Sample.db).
Proof.
  intros low_tube.
  assert (out_of_bounds low_tube) as Hout.
  { right; left. exists 2. split; [reflexivity|lia]. }
  destruct (numeric_bounds_enforced Sample.sc Sample.schema low_tube) as (_ & _ & H).
  destruct (H Hout) as [Hc Hv]. split; [exact Hout|]. split; [exact Hc|]. apply Hv.
Defined.

(** The tube size is the only thing field cleaning holds against that
    instance, and with a size within bounds it has nothing against it. *)
Example sample_bedside :
  clean_fields Sample.sc Sample.schema (bedside 170.5 64 40 25 2)
    = [("ett_tt", [Invalid "min_value"])] ∧
  clean_fields Sample.sc Sample.schema (bedside 170.5 64 40 25 7) = [] ∧
  clean_fields Sample.sc Sample.schema (bedside 0 0 0 0 3) = [] ∧
  clean_fields Sample.sc Sample.schema (bedside 0 0 100 2147483647 10) = [].
Proof. vm_compute. done. Qed.

(** A cuff pressure above the 32-bit column range is not negative, so the
    bounds as the specification words them are met; the validators report
    it all the same, and the write is refused for it alone. *)
Lemma cuff_pressure_above_column_range :
  let self := bedside 170.5 64 40 2147483648 7 in
  ¬ out_of_range self ∧
  Field_run_validators cuff_pressure_field (cuff_pressure self) = [Invalid "max_value"] ∧
  clean_fields Sample.sc Sample.schema self = [("cuff_pressure", [Invalid "max_value"])] ∧
  validated_save Sample.sc Sample.schema self Sample.db
    = (Rejected [("cuff_pressure", [Invalid "max_value"])], Sample.db).
Proof.
  split_and!; try (vm_compute; reflexivity).
  unfold out_of_range, negative; simpl.
  intros [(n & [= <-] & Hn)|[(n & [= <-] & Hn)|[(x & [= <-] & Hx)|[(x & [= <-] & Hx)
          |(n & [= <-] & Hn)]]]]; try lia; vm_compute in Hx; discriminate.
Qed.

(** * Further properties *)

(** ** What the storage layer asks of a row *)

Lemma null_violations_nil row :
  null_violations row = [] ↔
  patient row ≠ None ∧ facility row ≠ None ∧ suggestion row ≠ None ∧
  admitted row ≠ None ∧ lines row ≠ JNull.
Proof.
  unfold null_violations.
  destruct (patient row), (facility row), (suggestion row), (admitted row),
    (lines row); simpl; split; try done; intros (? & ? & ? & ? & ?); done.
Qed.

Lemma dangling_false {V} (target : gmap rowid V) ref :
  dangling target ref = false ↔ ∀ k, ref = Some k → is_Some (target !! k).
Proof.
  unfold dangling. destruct ref as [k|]; [|by split].
  destruct (target !! k) as [v|] eqn:E; simpl; split; try done.
  - intros _ j [= <-]. by rewrite E.
  - intros H. destruct (H k eq_refl) as [v Hv]. by rewrite E in Hv.
Qed.

Lemma foreign_key_violations_nil db row :
  foreign_key_violations db row = [] ↔
  dangling (patients db) (patient row) = false ∧
  dangling (facilities db) (facility row) = false ∧
  dangling (facilities db) (referred_to row) = false.
Proof.
  unfold foreign_key_violations.
  destruct (dangling (patients db) (patient row)),
    (dangling (facilities db) (facility row)),
    (dangling (facilities db) (referred_to row)); simpl; split; try done;
    intros (? & ? & ?); done.
Qed.

Lemma dangling_insert {V} (target : gmap rowid V) k v ref :
  dangling target ref = false → dangling (<[k := v]> target) ref = false.
Proof.
  rewrite !dangling_false. intros H j Hj.
  destruct (decide (k = j)) as [->|Hne].
  - rewrite lookup_insert_eq. by eexists.
  - rewrite lookup_insert_ne by done. by apply H.
Qed.

Lemma dangling_delete {V} (target : gmap rowid V) k ref :
  dangling target ref = false → ref ≠ Some k →
  dangling (delete k target) ref = false.
Proof.
  rewrite !dangling_false. intros H Hne j Hj.
  rewrite lookup_delete_ne by congruence. by apply H.
Qed.

Lemma no_referral_to db f :
  map_to_list (filter (λ kv : rowid * PatientConsultation, referred_to kv.2 = Some f)
                 (consultations db)) = [] ↔
  ∀ k row, consultations db !! k = Some row → referred_to row ≠ Some f.
Proof.
  rewrite map_to_list_empty_iff. split.
  - intros E k row Hrow Href.
    assert (filter (λ kv : rowid * PatientConsultation, referred_to kv.2 = Some f)
              (consultations db) !! k = Some row) as Hk
      by (by apply map_lookup_filter_Some).
    rewrite E in Hk. by rewrite lookup_empty in Hk.
  - intros H. apply map_eq. intros k. rewrite lookup_empty.
    apply map_lookup_filter_None. right. intros row Hrow. simpl. by apply (H k).
Qed.

(** Every write keeps the foreign keys of the stored rows resolving. *)
Lemma stored_rows_resolve sc db :
  reachable sc db →
  map_Forall (λ _ row, foreign_key_violations db row = []) (consultations db).
Proof.
  induction 1 as [|op db Hdb IH]; [apply map_Forall_empty|].
  intros k row Hrow. destruct op as [rec|rec|self|j|j|j]; simpl in *.
  - specialize (IH k row Hrow). apply foreign_key_violations_nil in IH as (Hp & Hf & Hr).
    apply foreign_key_violations_nil. simpl. split_and!; [|done|done].
    by apply dangling_insert.
  - specialize (IH k row Hrow). apply foreign_key_violations_nil in IH as (Hp & Hf & Hr).
    apply foreign_key_violations_nil. simpl. split_and!; [done| |];
      by apply dangling_insert.
  - unfold save, PatientBaseModel_save in *.
    destruct (violations sc db self) as [|e rest] eqn:E; simpl in *; [|by apply (IH k)].
    apply lookup_insert_Some in Hrow as [[_ <-]|[_ Hrow]]; [|by apply (IH k)].
    by apply violations_nil in E as (_ & _ & E).
  - unfold delete_consultation in *; simpl in *.
    apply lookup_delete_Some in Hrow as [_ Hrow]. by apply (IH k).
  - unfold delete_patient in *; simpl in *.
    apply map_lookup_filter_Some in Hrow as [Hrow Hne]; simpl in Hne.
    specialize (IH k row Hrow). apply foreign_key_violations_nil in IH as (Hp & Hf & Hr).
    apply foreign_key_violations_nil. simpl. split_and!; [|done|done].
    by apply dangling_delete.
  - unfold delete_facility in *.
    destruct (map_to_list _) as [|x xs] eqn:E; simpl in *; [|by apply (IH k)].
    apply map_lookup_filter_Some in Hrow as [Hrow Hne]; simpl in Hne.
    pose proof (proj1 (no_referral_to db j) E k row Hrow) as Href.
    specialize (IH k row Hrow). apply foreign_key_violations_nil in IH as (Hp & Hf & Hr).
    apply foreign_key_violations_nil. simpl. split_and!; [done| |];
      by apply dangling_delete.
Qed.

(** Every stored row sits under its own primary key. *)
Lemma stored_rows_keyed sc db :
  reachable sc db → map_Forall (λ k row, pk row = Some k) (consultations db).
Proof.
  induction 1 as [|op db Hdb IH]; [apply map_Forall_empty|].
  intros k row Hrow.
  apply run_consultations in Hrow as [Hrow|(self & -> & _ & ->)]; [by apply (IH k)|done].
Qed.

(** X1: [save] raises, and leaves the database as it was, whenever the
    instance lacks a patient, a facility, a suggestion, an [admitted] flag or
    its [lines], and whenever its patient, its facility or its referral target
    is not a stored row. *)
Theorem save_refuses_incomplete sc self db :
  (patient self = None ∨ facility self = None ∨ suggestion self = None ∨
   admitted self = None ∨ lines self = JNull) ∨
  (∃ p, patient self = Some p ∧ patients db !! p = None) ∨
  (∃ f, facility self = Some f ∧ facilities db !! f = None) ∨
  (∃ f, referred_to self = Some f ∧ facilities db !! f = None) →
  ∃ e, save sc self db = (Raised e, db).
Proof.
  intros H. apply save_raised. intros Hv.
  apply violations_nil in Hv as (Hn & _ & Hfk).
  apply null_violations_nil in Hn as (? & ? & ? & ? & ?).
  apply foreign_key_violations_nil in Hfk as (Hp & Hf & Hr).
  rewrite dangling_false in Hp. rewrite dangling_false in Hf.
  rewrite dangling_false in Hr.
  destruct H as [[?|[?|[?|[?|?]]]]|[(p & Hs & Hnone)|[(f & Hs & Hnone)|(f & Hs & Hnone)]]];
    try done.
  - destruct (Hp p Hs) as [? E]. by rewrite Hnone in E.
  - destruct (Hf f Hs) as [? E]. by rewrite Hnone in E.
  - destruct (Hr f Hs) as [? E]. by rewrite Hnone in E.
Qed.

Lemma save_refuses_incomplete_witness :
  let stray := Sample.visit "R" (Some 9%positive) true (Some 1600000000) in
  (∃ f, referred_to stray = Some f ∧ facilities Sample.db !! f = None) ∧
  ∃ e, save Sample.sc stray Sample.db = (Raised e, Sample.db).
Proof.
  intros stray.
  assert (∃ f, referred_to stray = Some f ∧ facilities Sample.db !! f = None) as H.
  { exists 9%positive. split; [reflexivity|]. vm_compute. reflexivity. }
  split; [exact H|].
  apply (save_refuses_incomplete Sample.sc stray Sample.db). by do 3 right.
Defined.

(** X2: in every database the application can reach, a stored consultation
    sits under its own primary key and has a patient, a facility, a
    suggestion, an [admitted] flag and [lines] that are not null. *)
Theorem stored_rows_are_complete sc db k row :
  reachable sc db → consultations db !! k = Some row →
  pk row = Some k ∧
  patient row ≠ None ∧ facility row ≠ None ∧ suggestion row ≠ None ∧
  admitted row ≠ None ∧ lines row ≠ JNull.
Proof.
  intros Hdb Hrow. split; [by apply (stored_rows_keyed sc db Hdb k)|].
  destruct (stored_rows_ok sc db Hdb k row Hrow) as [Hn _].
  by apply null_violations_nil.
Qed.

Lemma stored_rows_are_complete_witness :
  let row := with_pk 1 (Sample.visit "R" (Some 2%positive) true (Some 1600000000)) in
  reachable Sample.sc Sample.db ∧
  consultations Sample.db !! 1%positive = Some row ∧
  pk row = Some 1%positive ∧
  patient row ≠ None ∧ facility row ≠ None ∧ suggestion row ≠ None ∧
  admitted row ≠ None ∧ lines row ≠ JNull.
Proof.
  intros row.
  assert (consultations Sample.db !! 1%positive = Some row) as Hrow
    by (vm_compute; reflexivity).
  split; [apply reachable_run_all|]. split; [exact Hrow|].
  exact (stored_rows_are_complete Sample.sc Sample.db 1%positive row
           (reachable_run_all _ _) Hrow).
Defined.

(** X3: in every database the application can reach, the patient and the
    facility of a stored consultation are stored rows, and so is its referral
    target when it has one: no write leaves a consultation pointing at a
    deleted row. *)
Theorem stored_rows_point_at_rows sc db k row :
  reachable sc db → consultations db !! k = Some row →
  (∃ p rec, patient row = Some p ∧ patients db !! p = Some rec) ∧
  (∃ f rec, facility row = Some f ∧ facilities db !! f = Some rec) ∧
  (∀ f, referred_to row = Some f → ∃ rec, facilities db !! f = Some rec).
Proof.
  intros Hdb Hrow.
  destruct (stored_rows_ok sc db Hdb k row Hrow) as [Hn _].
  apply null_violations_nil in Hn as (Hp & Hf & _).
  pose proof (stored_rows_resolve sc db Hdb k row Hrow) as Hfk.
  apply foreign_key_violations_nil in Hfk as (Hdp & Hdf & Hdr).
  rewrite dangling_false in Hdp. rewrite dangling_false in Hdf.
  rewrite dangling_false in Hdr.
  split_and!.
  - destruct (patient row) as [p|]; [|done].
    destruct (Hdp p eq_refl) as [rec Hrec]. by exists p, rec.
  - destruct (facility row) as [f|]; [|done].
    destruct (Hdf f eq_refl) as [rec Hrec]. by exists f, rec.
  - intros f Hf'. by apply Hdr.
Qed.

Lemma stored_rows_point_at_rows_witness :
  let row := with_pk 1 (Sample.visit "R" (Some 2%positive) true (Some 1600000000)) in
  reachable Sample.sc Sample.db ∧
  consultations Sample.db !! 1%positive = Some row ∧
  (∃ p rec, patient row = Some p ∧ patients Sample.db !! p = Some rec) ∧
  (∃ f rec, facility row = Some f ∧ facilities Sample.db !! f = Some rec) ∧
  (∀ f, referred_to row = Some f → ∃ rec, facilities Sample.db !! f = Some rec).
Proof.
  intros row.
  assert (consultations Sample.db !! 1%positive = Some row) as Hrow
    by (vm_compute; reflexivity).
  split; [apply reachable_run_all|]. split; [exact Hrow|].
  exact (stored_rows_point_at_rows Sample.sc Sample.db 1%positive row
           (reachable_run_all _ _) Hrow).
Defined.

(** X4: [__str__] of a stored consultation never fails: it is the name of
    its patient, ["<>"], and the name of its facility. *)
Theorem str_of_stored_row sc db k row :
  reachable sc db → consultations db !! k = Some row →
  ∃ p f prec frec,
    patient row = Some p ∧ patients db !! p = Some prec ∧
    facility row = Some f ∧ facilities db !! f = Some frec ∧
    __str__ row db = Some (patient_name prec ++ "<>" ++ facility_name frec).
Proof.
  intros Hdb Hrow.
  destruct (stored_rows_ok sc db Hdb k row Hrow) as [Hn _].
  apply null_violations_nil in Hn as (Hp & Hf & _).
  pose proof (stored_rows_resolve sc db Hdb k row Hrow) as Hfk.
  apply foreign_key_violations_nil in Hfk as (Hdp & Hdf & _).
  rewrite dangling_false in Hdp. rewrite dangling_false in Hdf.
  destruct (patient row) as [p|] eqn:Ep; [|done].
  destruct (facility row) as [f|] eqn:Ef; [|done].
  destruct (Hdp p eq_refl) as [prec Hprec].
  destruct (Hdf f eq_refl) as [frec Hfrec].
  exists p, f, prec, frec. split_and!; try done.
  unfold __str__. rewrite Ep, Ef. simpl. by rewrite Hprec, Hfrec.
Qed.

Lemma str_of_stored_row_witness :
  let row := with_pk 1 (Sample.visit "R" (Some 2%positive) true (Some 1600000000)) in
  reachable Sample.sc Sample.db ∧
  consultations Sample.db !! 1%positive = Some row ∧
  ∃ p f prec frec,
    patient row = Some p ∧ patients Sample.db !! p = Some prec ∧
    facility row = Some f ∧ facilities Sample.db !! f = Some frec ∧
    __str__ row Sample.db = Some (patient_name prec ++ "<>" ++ facility_name frec).
Proof.
  intros row.
  assert (consultations Sample.db !! 1%positive = Some row) as Hrow
    by (vm_compute; reflexivity).
  split; [apply reachable_run_all|]. split; [exact Hrow|].
  exact (str_of_stored_row Sample.sc Sample.db 1%positive row
           (reachable_run_all _ _) Hrow).
Defined.

Example sample_str :
  __str__ (Sample.visit "R" (Some 2%positive) true (Some 1600000000)) Sample.db
    = Some "P<>F1" ∧
  __str__ (Sample.visit "R" (Some 2%positive) true (Some 1600000000)) empty_db = None.
Proof. vm_compute. done. Qed.

(** ** Saving, and saving again *)

(** X5: when [save] accepts an instance, the instance it hands back is the
    one given with its primary key set, it is what a lookup under that key
    finds afterwards, and every other row is as before; an instance that came
    without a primary key gets one no row was using, one that came with a
    primary key keeps it. *)
Theorem save_then_lookup sc self db stored db' :
  save sc self db = (Saved stored, db') →
  ∃ k, stored = with_pk k self ∧
       consultations db' !! k = Some stored ∧
       (∀ j, j ≠ k → consultations db' !! j = consultations db !! j) ∧
       (pk self = None → consultations db !! k = None) ∧
       (∀ j, pk self = Some j → j = k).
Proof.
  unfold save, PatientBaseModel_save.
  destruct (violations sc db self) as [|e rest]; [|done].
  intros [= <- <-]. eexists. split; [reflexivity|]. simpl. split_and!.
  - apply lookup_insert_eq.
  - intros j Hj. by rewrite lookup_insert_ne.
  - intros ->. simpl. apply not_elem_of_dom, is_fresh.
  - by intros j ->.
Qed.

Lemma save_then_lookup_witness :
  let self := Sample.visit "A" None true (Some 1600000000) in
  let result := save Sample.sc self Sample.db in
  result = (Saved (with_pk 2 self), result.2) ∧
  ∃ k, with_pk 2 self = with_pk k self ∧
       consultations result.2 !! k = Some (with_pk 2 self) ∧
       (∀ j, j ≠ k → consultations result.2 !! j = consultations Sample.db !! j) ∧
       (pk self = None → consultations Sample.db !! k = None) ∧
       (∀ j, pk self = Some j → j = k).
Proof.
  intros self result.
  assert (result = (Saved (with_pk 2 self), result.2)) as Hsave
    by (vm_compute; reflexivity).
  split; [exact Hsave|].
  exact (save_then_lookup Sample.sc self Sample.db _ _ Hsave).
Defined.

(** X6: saving the instance that [save] handed back changes nothing: the same
    instance comes back and the database stays as the first save left it. *)
Theorem save_again_is_noop sc self db stored db' :
  save sc self db = (Saved stored, db') →
  save sc stored db' = (Saved stored, db').
Proof.
  unfold save, PatientBaseModel_save.
  destruct (violations sc db self) as [|e rest] eqn:E; [|done].
  intros [= <- <-].
  set (k := default (fresh (dom (consultations db))) (pk self)).
  change (violations sc
            (set_consultations (<[k := with_pk k self]> (consultations db)) db)
            (with_pk k self))
    with (violations sc db self).
  rewrite E. simpl. f_equal. unfold set_consultations; simpl.
  f_equal. apply insert_insert_eq.
Qed.

Lemma save_again_is_noop_witness :
  let self := Sample.visit "A" None true (Some 1600000000) in
  let result := save Sample.sc self Sample.db in
  result = (Saved (with_pk 2 self), result.2) ∧
  save Sample.sc (with_pk 2 self) result.2 = (Saved (with_pk 2 self), result.2).
Proof.
  intros self result.
  assert (result = (Saved (with_pk 2 self), result.2)) as Hsave
    by (vm_compute; reflexivity).
  split; [exact Hsave|].
  exact (save_again_is_noop Sample.sc self Sample.db _ _ Hsave).
Defined.

(** X12: [save] does not look at [height] and [weight]: with any other two
    values the same instance is accepted or refused just the same (with the
    same error), and when it is accepted the values are stored as given, a
    height below zero included. *)
Theorem save_ignores_height_weight sc self db h w :
  (save sc (with_height_weight h w self) db).1 =
    match (save sc self db).1 with
    | Saved stored => Saved (with_height_weight h w stored)
    | Raised e => Raised e
    end ∧
  (∀ stored, (save sc self db).1 = Saved stored →
     ∃ k, pk stored = Some k ∧
          consultations (save sc (with_height_weight h w self) db).2 !! k
          = Some (with_height_weight h w stored)).
Proof.
  unfold save, PatientBaseModel_save.
  change (violations sc db (with_height_weight h w self)) with (violations sc db self).
  destruct (violations sc db self) as [|e rest]; simpl; [|by split].
  split; [done|]. intros stored [= <-]. eexists. split; [reflexivity|].
  apply lookup_insert_eq.
Qed.

Example sample_negative_height_stored :
  let self := with_height_weight (Some (-3)%float) None
                (Sample.visit "A" None true (Some 1600000000)) in
  height <$> consultations (save Sample.sc self Sample.db).2 !! 2%positive
    = Some (Some (-3)%float) ∧
  ∃ errors, validated_save Sample.sc Sample.schema self Sample.db
            = (Rejected errors, Sample.db).
Proof. split; [vm_compute; reflexivity|]. eexists. vm_compute. reflexivity. Qed.

(** ** Deleting a facility *)

(** X7: deleting a facility raises, leaving the database as it was, exactly
    when some stored consultation names it as [referred_to]; the error then
    lists the primary keys of exactly those consultations. *)
Theorem facility_delete_refused_exactly db f :
  ((∃ e, (delete_facility f db).1 = Some e) ↔
   ∃ k row, consultations db !! k = Some row ∧ referred_to row = Some f) ∧
  (∀ relation protected_objects,
     (delete_facility f db).1 = Some (Protected relation protected_objects) →
     (delete_facility f db).2 = db ∧
     ∀ k, k ∈ protected_objects ↔
          ∃ row, consultations db !! k = Some row ∧ referred_to row = Some f).
Proof.
  unfold delete_facility.
  destruct (map_to_list _) as [|x xs] eqn:E; simpl.
  - split.
    + split; [by intros [e [=]]|]. intros (k & row & Hrow & Href).
      by destruct (proj1 (no_referral_to db f) E k row Hrow).
    + by intros relation protected_objects [=].
  - assert (∀ k, k ∈ (x :: xs).*1 ↔
                 ∃ row, consultations db !! k = Some row ∧ referred_to row = Some f) as Hkeys.
    { intros k. rewrite <- E. rewrite list_elem_of_fmap. split.
      - intros ([k' row] & -> & Hin). apply elem_of_map_to_list in Hin.
        apply map_lookup_filter_Some in Hin as [Hrow Href]. by exists row.
      - intros (row & Hrow & Href). exists (k, row). split; [done|].
        apply elem_of_map_to_list. by apply map_lookup_filter_Some. }
    split.
    + split; [|by eexists]. intros _.
      destruct x as [k row]. destruct (proj1 (Hkeys k)) as (row' & ? & ?).
      { simpl. apply elem_of_cons. by left. }
      by exists k, row'.
    + intros relation protected_objects [= <- <-]. by split.
Qed.



(** ** Validated suggestions in the export *)

Section ReverseChoicesAnyKeys.
Context `{Countable K}.
Implicit Types (choices : list (K * string)) (output : gmap K string).

(** Whatever the loop of [reverse_choices] leaves under a key was there at
    the start or is paired with the key in the list. *)
Lemma fill_lookup_Some choices output key label :
  foldl (λ output choice, <[choice.1 := choice.2]> output) output choices !! key
  = Some label →
  (key, label) ∈ choices ∨ output !! key = Some label.
Proof.
  revert output. induction choices as [|[k v] choices IH]; intros output Hlook.
  - by right.
  - simpl in Hlook. apply IH in Hlook as [Hin|Hlook].
    + left. apply elem_of_cons. by right.
    + apply lookup_insert_Some in Hlook as [[<- <-]|[_ Hlook]]; [|by right].
      left. apply elem_of_cons. by left.
Qed.

Lemma fill_is_Some choices output key :
  key ∈ choices.*1 →
  is_Some (foldl (λ output choice, <[choice.1 := choice.2]> output) output choices !! key).
Proof.
  revert output. induction choices as [|[k v] choices IH]; intros output Hkey.
  - by apply elem_of_nil in Hkey.
  - simpl in *. destruct (decide (key ∈ choices.*1)) as [Hin|Hout]; [by apply IH|].
    apply elem_of_cons in Hkey as [->|Hin]; [|done].
    rewrite fill_unlisted by done. rewrite lookup_insert_eq. by eexists.
Qed.

Lemma reverse_choices_label choices key :
  key ∈ choices.*1 →
  ∃ label, reverse_choices choices !! key = Some label ∧ (key, label) ∈ choices.
Proof.
  intros Hkey. destruct (fill_is_Some choices ∅ key Hkey) as [label Hlabel].
  exists label. split; [done|].
  apply fill_lookup_Some in Hlabel as [Hin|Hempty]; [done|].
  by rewrite lookup_empty in Hempty.
Qed.
End ReverseChoicesAnyKeys.

Lemma suggestion_code_label sc code :
  code ∈ SuggestionChoices.codes sc →
  ∃ label, REVERSE_SUGGESTION_CHOICES sc !! Some code = Some label ∧
           (Some code, label) ∈ SUGGESTION_CHOICES sc.
Proof.
  intros Hcode. apply reverse_choices_label.
  change ((SUGGESTION_CHOICES sc).*1) with (Some <$> SuggestionChoices.codes sc).
  apply list_elem_of_fmap. by exists code.
Qed.

Lemma suggestion_labels_tell_codes sc code1 code2 label :
  (Some code1, label) ∈ SUGGESTION_CHOICES sc →
  (Some code2, label) ∈ SUGGESTION_CHOICES sc →
  code1 = code2.
Proof.
  unfold SUGGESTION_CHOICES. rewrite !elem_of_cons, !elem_of_nil.
  intros [?|[?|[?|[?|[?|[]]]]]] [?|[?|[?|[?|[?|[]]]]]]; congruence.
Qed.

Lemma accepted_suggestion_is_code sc value :
  Field_clean (suggestion_field sc) value = [] →
  ∃ code, value = Some code ∧ code ∈ SuggestionChoices.codes sc.
Proof.
  unfold Field_clean. rewrite suggestion_validate.
  destruct value as [s|]; [|done].
  case_bool_decide; [done|]. case_bool_decide; [|done].
  intros _. by exists s.
Qed.

(** X9: a suggestion that field cleaning accepts is never exported as the
    placeholder: the printer registered for [suggestion] turns it into one of
    the five labels of [SUGGESTION_CHOICES]. *)
Theorem accepted_suggestion_prints_label sc categories value :
  Field_clean (suggestion_field sc) value = [] →
  ∃ pretty, make_pretty sc categories "suggestion" = Some pretty ∧
            pretty value ∈ (SUGGESTION_CHOICES sc).*2 ∧
            pretty value ≠ "-".
Proof.
  intros Hclean. eexists. split; [reflexivity|]. simpl.
  apply accepted_suggestion_is_code in Hclean as (code & -> & Hcode).
  destruct (suggestion_code_label sc code Hcode) as (label & Hlabel & Hin).
  unfold dict_get. rewrite Hlabel. simpl.
  assert (label ∈ (SUGGESTION_CHOICES sc).*2) as Hlabels.
  { apply list_elem_of_fmap. by exists (Some code, label). }
  split; [done|]. intros ->.
  unfold SUGGESTION_CHOICES in Hlabels; simpl in Hlabels.
  rewrite !elem_of_cons, elem_of_nil in Hlabels.
  destruct Hlabels as [?|[?|[?|[?|[?|[]]]]]]; discriminate.
Qed.

Lemma accepted_suggestion_prints_label_witness :
  Field_clean (suggestion_field Sample.sc) (Some "OP") = [] ∧
  ∃ pretty, make_pretty Sample.sc Sample.categories "suggestion" = Some pretty ∧
            pretty (Some "OP") ∈ (SUGGESTION_CHOICES Sample.sc).*2 ∧
            pretty (Some "OP") ≠ "-".
Proof.
  assert (Field_clean (suggestion_field Sample.sc) (Some "OP") = []) as Hclean
    by (vm_compute; reflexivity).
  split; [exact Hclean|].
  exact (accepted_suggestion_prints_label Sample.sc Sample.categories (Some "OP") Hclean).
Defined.

(** X10: the export keeps the dispositions apart: two codes of
    [SuggestionChoices] that the printer registered for [suggestion] turns
    into the same label are the same code. *)
Theorem suggestion_labels_keep_codes_apart sc categories code1 code2 :
  code1 ∈ SuggestionChoices.codes sc → code2 ∈ SuggestionChoices.codes sc →
  ∃ pretty, make_pretty sc categories "suggestion" = Some pretty ∧
            (pretty (Some code1) = pretty (Some code2) → code1 = code2).
Proof.
  intros H1 H2. eexists. split; [reflexivity|]. simpl.
  destruct (suggestion_code_label sc code1 H1) as (label1 & Hlabel1 & Hin1).
  destruct (suggestion_code_label sc code2 H2) as (label2 & Hlabel2 & Hin2).
  unfold dict_get. rewrite Hlabel1, Hlabel2. simpl. intros <-.
  by apply (suggestion_labels_tell_codes sc code1 code2 label1).
Qed.

Lemma suggestion_labels_keep_codes_apart_witness :
  "R" ∈ SuggestionChoices.codes Sample.sc ∧ "OP" ∈ SuggestionChoices.codes Sample.sc ∧
  ∃ pretty, make_pretty Sample.sc Sample.categories "suggestion" = Some pretty ∧
            (pretty (Some "R") = pretty (Some "OP") → "R" = "OP").
Proof.
  assert ("R" ∈ SuggestionChoices.codes Sample.sc) as H1
    by (apply (bool_decide_unpack _); vm_compute; exact I).
  assert ("OP" ∈ SuggestionChoices.codes Sample.sc) as H2
    by (apply (bool_decide_unpack _); vm_compute; exact I).
  split; [exact H1|]. split; [exact H2|].
  exact (suggestion_labels_keep_codes_apart Sample.sc Sample.categories "R" "OP" H1 H2).
Defined.

(** ** The errors of the bounded fields *)

(** X11: on a value that is not null each bounded integer field reports at
    most one error, [min_value] below its lower bound and [max_value] above
    its upper bound, and none in between; for [cuff_pressure] the upper bound
    is the end of the 32-bit column range, which [IntegerField] adds because
    the field declares only a lower bound. *)
Theorem bounded_fields_report_one_error (n : Z) :
  Field_run_validators cpk_mb_field (Some n) =
    (if (n <? 0)%Z then [Invalid "min_value"]
     else if (100 <? n)%Z then [Invalid "max_value"] else []) ∧
  Field_run_validators ett_tt_field (Some n) =
    (if (n <? 3)%Z then [Invalid "min_value"]
     else if (10 <? n)%Z then [Invalid "max_value"] else []) ∧
  Field_run_validators cuff_pressure_field (Some n) =
    (if (n <? 0)%Z then [Invalid "min_value"]
     else if (2147483647 <? n)%Z then [Invalid "max_value"] else []).
Proof.
  assert (∀ lo hi (f : Field Z),
            validators f = [MinValueValidator lo; MaxValueValidator hi] → (lo ≤ hi)%Z →
            Field_run_validators f (Some n) =
              (if (n <? lo)%Z then [Invalid "min_value"]
               else if (hi <? n)%Z then [Invalid "max_value"] else [])) as Hone.
  { intros lo hi f Hf Hle. unfold Field_run_validators; simpl. rewrite Hf; simpl.
    unfold MinValueValidator, MaxValueValidator; simpl.
    destruct (Z.ltb_spec n lo), (Z.gtb_spec n hi), (Z.ltb_spec hi n); simpl;
      (done || lia). }
  split_and!.
  - by apply (Hone 0 100 cpk_mb_field).
  - by apply (Hone 3 10 ett_tt_field).
  - by apply (Hone 0 2147483647 cuff_pressure_field).
Qed.

(** ** What a validated write stores *)

Lemma clean_field_nil `{PyValue V} field_name (f : Field V) value :
  blank f = false → clean_field field_name f value = [] →
  Field_clean f value = [] ∧ Field_run_validators f value = [].
Proof.
  intros Hblank. unfold clean_field. rewrite Hblank. simpl.
  destruct (Field_clean f value) as [|e errors] eqn:E; [|done].
  intros _. split; [done|]. unfold Field_clean in E.
  by destruct (Field_validate f value).
Qed.

Lemma saved_row_is_stored sc self db stored db' :
  save sc self db = (Saved stored, db') →
  ∃ k, stored = with_pk k self ∧ consultations db' !! k = Some stored.
Proof.
  unfold save, PatientBaseModel_save.
  destruct (violations sc db self) as [|e rest]; [|done].
  intros [= <- <-]. eexists. split; [reflexivity|]. apply lookup_insert_eq.
Qed.

(** X13: a write that passed field cleaning and was accepted by [save] has
    stored a row whose suggestion is one of the five codes and whose bounded
    measurements are within their bounds. *)
Theorem validated_write_stores_valid_row sc schema self db stored db' :
  validated_save sc schema self db = (Written (Saved stored), db') →
  (∃ k, pk stored = Some k ∧ consultations db' !! k = Some stored) ∧
  (∃ code, code ∈ SuggestionChoices.codes sc ∧ suggestion stored = Some code) ∧
  ¬ out_of_range stored.
Proof.
  unfold validated_save.
  destruct (clean_fields sc schema self) as [|x xs] eqn:Hclean; [|done].
  intros [= Hout Hdb].
  destruct (save sc self db) as [result db''] eqn:Hsave; simpl in *; subst.
  destruct (saved_row_is_stored sc self db stored db' Hsave) as (k & -> & Hk).
  unfold clean_fields in Hclean. rewrite !app_nil in Hclean.
  destruct Hclean as (Hs & Hh & Hw & Hc & Hcu & He & _).
  apply clean_field_nil in Hs as [Hs _]; [|done].
  apply clean_field_nil in Hh as [_ Hh]; [|done].
  apply clean_field_nil in Hw as [_ Hw]; [|done].
  apply clean_field_nil in Hc as [_ Hc]; [|done].
  apply clean_field_nil in Hcu as [_ Hcu]; [|done].
  apply clean_field_nil in He as [_ He]; [|done].
  split_and!.
  - by exists k.
  - apply accepted_suggestion_is_code in Hs as (code & Hcode & Hin). by exists code.
  - unfold out_of_range; simpl.
    intros [H|[H|[H|[H|H]]]].
    + by apply (min_max_errors 0 100 cpk_mb_field) in H.
    + by apply (min_max_errors 3 10 ett_tt_field) in H.
    + by apply (float_min_zero_errors height_field) in H.
    + by apply (float_min_zero_errors weight_field) in H.
    + destruct H as (n & Hn & Hlt).
      apply (min_max_errors 0 2147483647 cuff_pressure_field (cuff_pressure self));
        [reflexivity| |done].
      exists n. split; [done|by left].
Qed.

Lemma validated_write_stores_valid_row_witness :
  let self := Sample.with_lines (JArr [Sample.central_line]) in
  let result := validated_save Sample.sc Sample.schema self Sample.db in
  result = (Written (Saved (with_pk 2 self)), result.2) ∧
  (∃ k, pk (with_pk 2 self) = Some k ∧
        consultations result.2 !! k = Some (with_pk 2 self)) ∧
  (∃ code, code ∈ SuggestionChoices.codes Sample.sc ∧
           suggestion (with_pk 2 self) = Some code) ∧
  ¬ out_of_range (with_pk 2 self).
Proof.
  intros self result.
  assert (result = (Written (Saved (with_pk 2 self)), result.2)) as Hwrite
    by (vm_compute; reflexivity).
  split; [exact Hwrite|].
  exact (validated_write_stores_valid_row Sample.sc Sample.schema self Sample.db _ _ Hwrite).
Defined.
